(** * Audio notification hook: a shallow embedding and its properties

    The program under study is
    [plugins/audio-notifications/hooks/audio_notification_hook.py]:
    a one-shot hook that loads a preference file, reads one JSON event from
    standard input and shells out to a text-to-speech command.

    The embedding follows the Python text.  Strings are sequences of Unicode
    code points; the calls into the interpreter's library ([str.strip],
    [shlex.split], [json.loads]) are written out as executable functions; the
    calls that touch the outside world (reading the preference file, reading
    standard input, probing the execution path, launching a process) consult
    a [World] and leave an [event] in a trace, inside a small monad that also
    carries Python's two ways of leaving a function early: a raised exception
    and [sys.exit].

    The definitions come first: the library models, the world and the monad,
    the hook itself, then the vocabulary of the properties and the sample
    inputs.  The facts follow: the library models on samples, the hook run
    by hand, and the properties C1 to C10. *)

From Stdlib Require Import List NArith ZArith Bool String Ascii Lia.
Import ListNotations.

#[local] Set Warnings "-register-all".
Local Open Scope N_scope.

(* ===================================================================== *)
(** ** Python strings *)
(* ===================================================================== *)

Module PyStr.

(** A Python [str]: a sequence of code points. *)
Definition pystr : Type := list N.

(** Reading a literal of this file as a Python string. *)
Definition str (s : string) : pystr :=
  map N_of_ascii (list_ascii_of_string s).

(** The same, with every apostrophe of the literal read as a double quote,
    so that JSON texts can be written down. *)
Definition dq (s : string) : pystr :=
  map (fun c => if c =? 39 then 34 else c) (str s).

Fixpoint eqb (a b : pystr) : bool :=
  match a, b with
  | [], [] => true
  | x :: a', y :: b' => (x =? y) && eqb a' b'
  | _, _ => false
  end.

(** [c in s] for a one-character [c]. *)
Definition mem (c : N) (s : pystr) : bool := existsb (N.eqb c) s.

(** [str.isspace] on one code point: the interpreter's white-space table. *)
Definition isspace (c : N) : bool :=
  ((9 <=? c) && (c <=? 13)) || ((28 <=? c) && (c <=? 32))
  || (c =? 133) || (c =? 160) || (c =? 5760)
  || ((8192 <=? c) && (c <=? 8202))
  || (c =? 8232) || (c =? 8233) || (c =? 8239) || (c =? 8287) || (c =? 12288).

(** [str.lstrip()], [str.rstrip()] and [str.strip()] without argument. *)
Fixpoint lstrip (s : pystr) : pystr :=
  match s with
  | c :: s' => if isspace c then lstrip s' else s
  | [] => []
  end.

Definition rstrip (s : pystr) : pystr := rev (lstrip (rev s)).

Definition strip (s : pystr) : pystr := rstrip (lstrip s).

End PyStr.
Import PyStr.

(* ===================================================================== *)
(** ** [shlex.split] *)
(* ===================================================================== *)

(** [shlex.split(s)] builds a POSIX-mode lexer with [whitespace_split] set
    and no comment character, and lists its tokens.  [read_token] is a state
    machine over the characters of [s]; its states are kept as the library
    names them. *)
Module Shlex.

Definition whitespace : pystr := [32; 9; 13; 10].   (* ' \t\r\n' *)
Definition quotes : pystr := [39; 34].              (* single, double *)
Definition escape : pystr := [92].                  (* backslash *)
Definition escapedquotes : pystr := [34].

Inductive state :=
| StBlank                              (* ' ' : between tokens *)
| StWord                               (* 'a' : inside a word *)
| StQuote (q : N)                      (* inside quotes opened by q *)
| StEscape (e : N) (escapedstate : state).  (* after the escape character e *)

(** Is the escaped state a quote state, and is [c] that quote? *)
Definition escaped_in_quotes (st : state) : bool :=
  match st with StQuote _ => true | _ => false end.

Definition is_quote_of (st : state) (c : N) : bool :=
  match st with StQuote q => c =? q | _ => false end.

(** What the lexer raises: [ValueError("No closing quotation")] and
    [ValueError("No escaped character")]. *)
Inductive error := NoClosingQuotation | NoEscapedCharacter.

(** [self.token or (self.posix and quoted)]: there is a token to emit. *)
Definition pending (token : pystr) (quoted : bool) : bool :=
  match token with [] => quoted | _ :: _ => true end.

(** One pass over the input.  [token] is the token under construction (in
    reverse), [quoted] records that it went through a quote state, [acc] is
    the list of tokens emitted so far (in reverse). *)
Fixpoint lex (st : state) (token : pystr) (quoted : bool)
    (acc : list pystr) (s : pystr) : error + list pystr :=
  match s with
  | [] =>
      (* end of input *)
      match st with
      | StQuote _ => inl NoClosingQuotation
      | StEscape _ _ => inl NoEscapedCharacter
      | StBlank | StWord =>
          if pending token quoted
          then inr (rev (rev token :: acc))
          else inr (rev acc)
      end
  | c :: s' =>
      match st with
      | StBlank =>
          if mem c whitespace then
            if pending token quoted
            then lex StBlank [] false (rev token :: acc) s'   (* emit *)
            else lex StBlank token quoted acc s'              (* continue *)
          else if mem c escape then lex (StEscape c StWord) token quoted acc s'
          else if mem c quotes then lex (StQuote c) token quoted acc s'
          else lex StWord [c] quoted acc s'
      | StQuote q =>
          if c =? q then lex StWord token true acc s'
          else if mem c escape && mem q escapedquotes
          then lex (StEscape c st) token true acc s'
          else lex st (c :: token) true acc s'
      | StEscape e escapedstate =>
          let token' :=
            if escaped_in_quotes escapedstate && negb (c =? e)
               && negb (is_quote_of escapedstate c)
            then e :: token else token in
          lex escapedstate (c :: token') quoted acc s'
      | StWord =>
          if mem c whitespace then
            if pending token quoted
            then lex StBlank [] false (rev token :: acc) s'   (* emit *)
            else lex StBlank token quoted acc s'              (* continue *)
          else if mem c quotes then lex (StQuote c) token quoted acc s'
          else if mem c escape then lex (StEscape c StWord) token quoted acc s'
          else lex StWord (c :: token) quoted acc s'
      end
  end.

Definition split (s : pystr) : error + list pystr :=
  lex StBlank [] false [] s.

End Shlex.

(* ===================================================================== *)
(** ** [json.loads] *)
(* ===================================================================== *)

(** The decoder of the interpreter's [json] package, with its default
    settings: strict strings, [NaN], [Infinity] and [-Infinity] accepted,
    white space [' \t\n\r'] between tokens, the whole text consumed.  It is
    written as two passes that each read their input once: characters to
    tokens, tokens to a value.  Every way the library has of refusing a text
    ([JSONDecodeError], the [ValueError] of an integer literal longer than
    the interpreter's digit limit, the [RecursionError] of nesting deeper
    than the interpreter can follow) is an [Exception] to the caller, and
    the hook catches them all alike; the decoder answers [None] for each.
    Throughout, a text "is JSON" when this decoder accepts it, which is the
    only notion of JSON the hook has. *)
Module Json.

(** The Python values the decoder builds.  [JNull] is Python's [None];
    a [float] is kept as its literal, the hook never computes with one. *)
Inductive value :=
| JNull
| JBool (b : bool)
| JInt (z : Z)
| JFloat (literal : pystr)
| JStr (s : pystr)
| JArr (items : list value)
| JObj (d : list (pystr * value)).

(** *** Dictionaries: [dict[key] = v] and [dict.get(key)] *)

Definition dict : Type := list (pystr * value).

Fixpoint dict_set (d : dict) (k : pystr) (v : value) : dict :=
  match d with
  | [] => [(k, v)]
  | (k', v') :: d' =>
      if PyStr.eqb k' k then (k', v) :: d' else (k', v') :: dict_set d' k v
  end.

Fixpoint dict_lookup (d : dict) (k : pystr) : option value :=
  match d with
  | [] => None
  | (k', v') :: d' => if PyStr.eqb k' k then Some v' else dict_lookup d' k
  end.

(** [d.get(k)]: the value, or [None] when the key is absent. *)
Definition get (d : dict) (k : pystr) : value :=
  match dict_lookup d k with Some v => v | None => JNull end.

(** *** Characters to tokens *)

Inductive token :=
| TLBrace | TRBrace | TLBracket | TRBracket | TColon | TComma
| TStr (s : pystr)
| TAtom (v : value).

(** The states of the number pattern: an optional minus sign, then zero or
    a non-zero digit followed by digits, then optionally a point and digits,
    then optionally e or E, an optional sign, and digits. *)
Inductive nstate :=
| NMinus | NZero | NInt | NDot | NFrac | NE | NESign | NExp.

Inductive lstate :=
| LIdle
| LStr (acc : list (bool * N))          (* inside a string; items reversed,
                                            flagged when written as \uXXXX *)
| LStrEsc (acc : list (bool * N))       (* after a backslash *)
| LStrU (acc : list (bool * N)) (hex : list N)  (* after \u, digits so far *)
| LKw (rest : pystr) (v : value)        (* inside null, true, false, ... *)
| LNum (ns : nstate) (neg : bool) (digits : nat) (lit : pystr).

Definition is_ws (c : N) : bool := mem c [32; 9; 10; 13].
Definition is_digit (c : N) : bool := (48 <=? c) && (c <=? 57).

Definition hex_val (c : N) : option N :=
  if is_digit c then Some (c - 48)
  else if (97 <=? c) && (c <=? 102) then Some (c - 87)
  else if (65 <=? c) && (c <=? 70) then Some (c - 55)
  else None.

(** The interpreter's limit on the digits of an integer literal. *)
Definition int_max_str_digits : nat := 4300.

Definition int_of_digits (lit : pystr) : Z :=
  fold_left (fun z c => (10 * z + Z.of_N (c - 48))%Z) lit 0%Z.

(** The token of a number whose pattern stopped in state [ns];
    [lit] is the literal reversed, without its sign. *)
Definition number_token (ns : nstate) (neg : bool) (digits : nat)
    (lit : pystr) : option token :=
  match ns with
  | NZero | NInt =>
      if Nat.leb digits int_max_str_digits
      then Some (TAtom (JInt (if neg then - int_of_digits (rev lit)
                              else int_of_digits (rev lit))%Z))
      else None
  | NFrac | NExp =>
      Some (TAtom (JFloat (if neg then 45 :: rev lit else rev lit)))
  | NMinus | NDot | NE | NESign => None
  end.

(** Surrogate pairs written as two consecutive \uXXXX escapes become one
    code point. *)
Fixpoint join_surrogates (items : list (bool * N)) : pystr :=
  match items with
  | [] => []
  | (u, c) :: rest =>
      match rest with
      | (true, c2) :: rest' =>
          if u && (55296 <=? c) && (c <=? 56319)
             && (56320 <=? c2) && (c2 <=? 57343)
          then (65536 + ((c - 55296) * 1024 + (c2 - 56320)))
               :: join_surrogates rest'
          else c :: join_surrogates rest
      | _ => c :: join_surrogates rest
      end
  end.

(** A character met between tokens. *)
Definition idle_step (c : N) : option (lstate * list token) :=
  if is_ws c then Some (LIdle, [])
  else if c =? 34 then Some (LStr [], [])
  else if c =? 123 then Some (LIdle, [TLBrace])
  else if c =? 125 then Some (LIdle, [TRBrace])
  else if c =? 91 then Some (LIdle, [TLBracket])
  else if c =? 93 then Some (LIdle, [TRBracket])
  else if c =? 58 then Some (LIdle, [TColon])
  else if c =? 44 then Some (LIdle, [TComma])
  else if c =? 110 then Some (LKw (str "ull") JNull, [])
  else if c =? 116 then Some (LKw (str "rue") (JBool true), [])
  else if c =? 102 then Some (LKw (str "alse") (JBool false), [])
  else if c =? 78 then Some (LKw (str "aN") (JFloat (str "NaN")), [])
  else if c =? 73 then Some (LKw (str "nfinity") (JFloat (str "Infinity")), [])
  else if c =? 45 then Some (LNum NMinus true 0 [], [])
  else if c =? 48 then Some (LNum NZero false 1 [c], [])
  else if is_digit c then Some (LNum NInt false 1 [c], [])
  else None.

(** The number ends before [c]: emit it, then read [c] between tokens. *)
Definition end_number (ns : nstate) (neg : bool) (digits : nat)
    (lit : pystr) (c : N) : option (lstate * list token) :=
  match number_token ns neg digits lit, idle_step c with
  | Some t, Some (st, ts) => Some (st, t :: ts)
  | _, _ => None
  end.

Definition step (st : lstate) (c : N) : option (lstate * list token) :=
  match st with
  | LIdle => idle_step c
  | LStr acc =>
      if c =? 34 then Some (LIdle, [TStr (join_surrogates (rev acc))])
      else if c =? 92 then Some (LStrEsc acc, [])
      else if c <=? 31 then None        (* control character, strict mode *)
      else Some (LStr ((false, c) :: acc), [])
  | LStrEsc acc =>
      if (c =? 34) || (c =? 92) || (c =? 47)
      then Some (LStr ((false, c) :: acc), [])
      else if c =? 98 then Some (LStr ((false, 8) :: acc), [])
      else if c =? 102 then Some (LStr ((false, 12) :: acc), [])
      else if c =? 110 then Some (LStr ((false, 10) :: acc), [])
      else if c =? 114 then Some (LStr ((false, 13) :: acc), [])
      else if c =? 116 then Some (LStr ((false, 9) :: acc), [])
      else if c =? 117 then Some (LStrU acc [], [])
      else None
  | LStrU acc hex =>
      match hex_val c with
      | None => None
      | Some h =>
          match hex with
          | [h2; h1; h0] =>
              Some (LStr ((true, ((h0 * 16 + h1) * 16 + h2) * 16 + h) :: acc), [])
          | _ => Some (LStrU acc (h :: hex), [])
          end
      end
  | LKw rest v =>
      match rest with
      | [] => None
      | [k] => if c =? k then Some (LIdle, [TAtom v]) else None
      | k :: rest' => if c =? k then Some (LKw rest' v, []) else None
      end
  | LNum ns neg digits lit =>
      match ns with
      | NMinus =>
          if c =? 48 then Some (LNum NZero neg 1 [c], [])
          else if is_digit c then Some (LNum NInt neg 1 [c], [])
          else if c =? 73
          then Some (LKw (str "nfinity") (JFloat (str "-Infinity")), [])
          else None
      | NZero =>
          if c =? 46 then Some (LNum NDot neg digits (c :: lit), [])
          else if (c =? 101) || (c =? 69)
          then Some (LNum NE neg digits (c :: lit), [])
          else end_number ns neg digits lit c
      | NInt =>
          if is_digit c then Some (LNum NInt neg (S digits) (c :: lit), [])
          else if c =? 46 then Some (LNum NDot neg digits (c :: lit), [])
          else if (c =? 101) || (c =? 69)
          then Some (LNum NE neg digits (c :: lit), [])
          else end_number ns neg digits lit c
      | NDot =>
          if is_digit c then Some (LNum NFrac neg digits (c :: lit), [])
          else None
      | NFrac =>
          if is_digit c then Some (LNum NFrac neg digits (c :: lit), [])
          else if (c =? 101) || (c =? 69)
          then Some (LNum NE neg digits (c :: lit), [])
          else end_number ns neg digits lit c
      | NE =>
          if (c =? 43) || (c =? 45)
          then Some (LNum NESign neg digits (c :: lit), [])
          else if is_digit c then Some (LNum NExp neg digits (c :: lit), [])
          else None
      | NESign =>
          if is_digit c then Some (LNum NExp neg digits (c :: lit), [])
          else None
      | NExp =>
          if is_digit c then Some (LNum NExp neg digits (c :: lit), [])
          else end_number ns neg digits lit c
      end
  end.

(** End of the text. *)
Definition finish (st : lstate) : option (list token) :=
  match st with
  | LIdle => Some []
  | LNum ns neg digits lit =>
      match number_token ns neg digits lit with
      | Some t => Some [t]
      | None => None
      end
  | LStr _ | LStrEsc _ | LStrU _ _ | LKw _ _ => None
  end.

Fixpoint tokens_from (st : lstate) (s : pystr) : option (list token) :=
  match s with
  | [] => finish st
  | c :: s' =>
      match step st c with
      | None => None
      | Some (st', ts) =>
          match tokens_from st' s' with
          | None => None
          | Some ts' => Some (ts ++ ts')
          end
      end
  end.

Definition tokenize (s : pystr) : option (list token) := tokens_from LIdle s.

(** *** Tokens to a value *)

(** An open container: an array with its items so far, or an object with
    its pairs so far and the key whose value is awaited (both reversed). *)
Inductive frame :=
| FArr (items : list value)
| FObj (pairs : list (pystr * value)) (key : pystr).

Inductive pstate :=
| SValue        (* a value must follow *)
| SArrOpen      (* after '[' : a value or ']' *)
| SObjOpen      (* after '{' : a key or '}' *)
| SKey          (* after ',' in an object: a key *)
| SColon        (* after a key: ':' *)
| SNext         (* after a value in a container: ',' or the closing bracket *)
| SDone (v : value).   (* the top-level value is complete *)

(** [dict(pairs)]: later pairs overwrite earlier ones. *)
Definition dict_of_pairs (pairs : list (pystr * value)) : dict :=
  fold_left (fun d kv => dict_set d (fst kv) (snd kv)) pairs [].

(** A complete value goes to the innermost open container. *)
Definition deliver (v : value) (stack : list frame) : pstate * list frame :=
  match stack with
  | [] => (SDone v, [])
  | FArr items :: stack' => (SNext, FArr (v :: items) :: stack')
  | FObj pairs key :: stack' => (SNext, FObj ((key, v) :: pairs) key :: stack')
  end.

(** A token that starts a value; [room] bounds the open containers. *)
Definition start_value (room : nat) (t : token) (stack : list frame)
    : option (pstate * list frame) :=
  match t with
  | TAtom v => Some (deliver v stack)
  | TStr s => Some (deliver (JStr s) stack)
  | TLBracket =>
      if Nat.ltb (List.length stack) room then Some (SArrOpen, FArr [] :: stack)
      else None
  | TLBrace =>
      if Nat.ltb (List.length stack) room then Some (SObjOpen, FObj [] [] :: stack)
      else None
  | TRBrace | TRBracket | TColon | TComma => None
  end.

Definition set_key (k : pystr) (stack : list frame)
    : option (pstate * list frame) :=
  match stack with
  | FObj pairs _ :: stack' => Some (SColon, FObj pairs k :: stack')
  | _ => None
  end.

Definition pstep (room : nat) (st : pstate) (stack : list frame) (t : token)
    : option (pstate * list frame) :=
  match st with
  | SValue => start_value room t stack
  | SArrOpen =>
      match t, stack with
      | TRBracket, FArr items :: stack' => Some (deliver (JArr (rev items)) stack')
      | _, _ => start_value room t stack
      end
  | SObjOpen =>
      match t, stack with
      | TRBrace, FObj pairs _ :: stack' =>
          Some (deliver (JObj (dict_of_pairs (rev pairs))) stack')
      | TStr k, _ => set_key k stack
      | _, _ => None
      end
  | SKey =>
      match t with
      | TStr k => set_key k stack
      | _ => None
      end
  | SColon =>
      match t with
      | TColon => Some (SValue, stack)
      | _ => None
      end
  | SNext =>
      match t, stack with
      | TComma, FArr _ :: _ => Some (SValue, stack)
      | TComma, FObj _ _ :: _ => Some (SKey, stack)
      | TRBracket, FArr items :: stack' =>
          Some (deliver (JArr (rev items)) stack')
      | TRBrace, FObj pairs _ :: stack' =>
          Some (deliver (JObj (dict_of_pairs (rev pairs))) stack')
      | _, _ => None
      end
  | SDone _ => None          (* extra data *)
  end.

Fixpoint parse (room : nat) (st : pstate) (stack : list frame)
    (ts : list token) : option value :=
  match ts with
  | [] => match st with SDone v => Some v | _ => None end
  | t :: ts' =>
      match pstep room st stack t with
      | None => None
      | Some (st', stack') => parse room st' stack' ts'
      end
  end.

(** [json.loads(s)], in an interpreter that can follow [room] nested
    containers; [None] when the library raises. *)
Definition loads (room : nat) (s : pystr) : option value :=
  match tokenize s with
  | None => None
  | Some ts => parse room SValue [] ts
  end.

End Json.
Import Json.

(* ===================================================================== *)
(** ** The outside world, and the monad of the hook *)
(* ===================================================================== *)

(** What [CONFIG_PATH.read_text()] finds. *)
Inductive file_state :=
| FileMissing                       (* FileNotFoundError *)
| FileUnreadable                    (* PermissionError, IsADirectoryError, ... *)
| FileUndecodable                   (* bytes that are not text *)
| FileText (text : pystr).

(** What [sys.stdin.read()] finds. *)
Inductive stdin_state :=
| StdinUndecodable
| StdinText (text : pystr).

(** What becomes of a launched command line. *)
Inductive process :=
| CannotLaunch                              (* no such executable, ... *)
| ExitsAfter (millis : N) (returncode : Z)
| NeverExits.

Record World := {
  config_file : file_state;
  stdin : stdin_state;
  which : pystr -> option pystr;      (* [shutil.which]: the path found *)
  spawn : list pystr -> process;
  recursion_room : nat                (* containers the decoder can nest *)
}.

(** What a run does to the outside world, in order. *)
Inductive event :=
| EvReadConfig
| EvReadStdin
| EvWhich (cmd : pystr)
| EvRun (argv : list pystr) (timeout : N).

(** The exceptions that occur; each is a subclass of [Exception]. *)
Inductive exn :=
| OSError
| UnicodeDecodeError
| DecoderError                      (* whatever [json.loads] raises *)
| ValueError (e : Shlex.error)
| CalledProcessError (returncode : Z)
| TimeoutExpired.

(** A computation ends with a value, with a raised exception, or with
    [sys.exit(code)]; [SystemExit] is not an [Exception]. *)
Inductive outcome (A : Type) :=
| Val (a : A)
| Raise (e : exn)
| SysExit (code : Z).
Arguments Val {A} a.
Arguments Raise {A} e.
Arguments SysExit {A} code.

Definition M (A : Type) : Type := World -> outcome A * list event.

Definition ret {A} (a : A) : M A := fun _ => (Val a, []).

Definition bind {A B} (m : M A) (f : A -> M B) : M B :=
  fun w =>
    match m w with
    | (Val a, t1) => let (r, t2) := f a w in (r, t1 ++ t2)
    | (Raise e, t1) => (Raise e, t1)
    | (SysExit c, t1) => (SysExit c, t1)
    end.

Declare Scope py_scope.
Delimit Scope py_scope with py.
Notation "x <- m ;; k" := (bind m (fun x => k))
  (at level 61, m at next level, right associativity) : py_scope.
Notation "m ;; k" := (bind m (fun _ => k))
  (at level 61, right associativity) : py_scope.
Local Open Scope py_scope.

Definition raise {A} (e : exn) : M A := fun _ => (Raise e, []).

(** [sys.exit(code)]. *)
Definition sys_exit {A} (code : Z) : M A := fun _ => (SysExit code, []).

(** [try: body / except Exception: handler]. *)
Definition try_except {A} (body handler : M A) : M A :=
  fun w =>
    match body w with
    | (Raise _, t1) => let (r, t2) := handler w in (r, t1 ++ t2)
    | other => other
    end.

(** [if cond: stmt]. *)
Definition when (cond : bool) (stmt : M unit) : M unit :=
  if cond then stmt else ret tt.

(** *** The library calls that touch the world *)

(** [CONFIG_PATH.read_text()]. *)
Definition read_text : M pystr :=
  fun w =>
    (match config_file w with
     | FileMissing | FileUnreadable => Raise OSError
     | FileUndecodable => Raise UnicodeDecodeError
     | FileText text => Val text
     end, [EvReadConfig]).

(** [sys.stdin.read()]. *)
Definition stdin_read : M pystr :=
  fun w =>
    (match stdin w with
     | StdinUndecodable => Raise UnicodeDecodeError
     | StdinText text => Val text
     end, [EvReadStdin]).

(** [json.loads(text)]. *)
Definition json_loads (text : pystr) : M value :=
  fun w =>
    (match Json.loads (recursion_room w) text with
     | Some v => Val v
     | None => Raise DecoderError
     end, []).

(** [shutil.which(cmd)]. *)
Definition shutil_which (cmd : pystr) : M (option pystr) :=
  fun w => (Val (which w cmd), [EvWhich cmd]).

(** [shlex.split(s)]. *)
Definition shlex_split (s : pystr) : M (list pystr) :=
  match Shlex.split s with
  | inr words => ret words
  | inl e => raise (ValueError e)
  end.

(** [subprocess.run(argv, check=check, timeout=timeout)], the timeout in
    seconds; the value is the return code of the completed process. *)
Definition subprocess_run (argv : list pystr) (check : bool) (timeout : N)
    : M Z :=
  fun w =>
    (match spawn w argv with
     | CannotLaunch => Raise OSError
     | NeverExits => Raise TimeoutExpired
     | ExitsAfter millis returncode =>
         if millis <? 1000 * timeout then
           if check && negb (returncode =? 0)%Z
           then Raise (CalledProcessError returncode)
           else Val returncode
         else Raise TimeoutExpired
     end, [EvRun argv timeout]).

(** Truth value of an [Optional[str]]: [None] and [''] are false. *)
Definition truthy (o : option pystr) : bool :=
  match o with Some (_ :: _) => true | _ => false end.

(* ===================================================================== *)
(** ** The hook *)
(* ===================================================================== *)

(** [for cmd in candidates: if shutil.which(cmd): return cmd] and
    [return None] after the loop. *)
Fixpoint first_on_path (candidates : list pystr) : M (option pystr) :=
  match candidates with
  | [] => ret None
  | cmd :: rest =>
      found <- shutil_which cmd ;;
      if truthy found then ret (Some cmd) else first_on_path rest
  end.

Definition default_candidates : list pystr :=
  [str "say"; str "spd-say"; str "espeak"].

Definition detect_default_command : M (option pystr) :=
  first_on_path default_candidates.

Record UserConfig := {
  audio_off : option bool;
  speech_command : option pystr
}.

Definition default_config : UserConfig :=
  {| audio_off := None; speech_command := None |}.

Definition get_user_config : M UserConfig :=
  let config := default_config in
  (* attempt to load user config, return defaults if fail *)
  loaded <- try_except
              (text <- read_text ;; v <- json_loads text ;; ret (Some v))
              (ret None) ;;
  match loaded with
  | None => ret config
  | Some (JObj user_config_json) =>
      let user_audio_off := get user_config_json (str "audio_off") in
      let config :=
        match user_audio_off with
        | JBool b => {| audio_off := Some b;
                        speech_command := speech_command config |}
        | _ => config
        end in
      let user_speech_command := get user_config_json (str "speech_command") in
      let config :=
        match user_speech_command with
        | JStr s => {| audio_off := audio_off config;
                       speech_command := Some (strip s) |}
        | _ => config
        end in
      ret config
  | Some _ => ret config
  end.

(** [x is True]. *)
Definition is_True (x : option bool) : bool :=
  match x with Some true => true | _ => false end.

(** [v != s] for a string [s]. *)
Definition differs_from (v : value) (s : pystr) : bool :=
  match v with JStr t => negb (PyStr.eqb t s) | _ => true end.

(** [user_config.speech_command or detect_default_command()]. *)
Definition configured_or_default (user_config : UserConfig)
    : M (option pystr) :=
  if truthy (speech_command user_config)
  then ret (speech_command user_config)
  else detect_default_command.

Definition main : M unit :=
  user_config <- get_user_config ;;
  when (is_True (audio_off user_config)) (sys_exit 0) ;;
  hook_data <- try_except (text <- stdin_read ;; json_loads text)
                          (sys_exit 2) ;;
  match hook_data with
  | JObj hook_data =>
      (* only trigger audio if hook is a notification *)
      when (differs_from (get hook_data (str "hook_event_name"))
                         (str "Notification"))
           (sys_exit 0) ;;
      match get hook_data (str "message") with
      | JStr message =>
          let message := strip message in
          (* attempt command set by user if available, else default options *)
          speech_command <- configured_or_default user_config ;;
          match speech_command with
          | Some speech_command =>
              speech_command <- shlex_split speech_command ;;
              try_except
                (subprocess_run (speech_command ++ [message]) true 10 ;;
                 ret tt)
                (sys_exit 2)
          | None => sys_exit 2
          end
      | _ => sys_exit 2
      end
  | _ => sys_exit 2
  end.

(** The status the interpreter exits with: 0 when [main] returns, the
    argument of [sys.exit], and 1 after the traceback of an exception that
    nothing caught. *)
Definition exit_status (r : outcome unit) : Z :=
  match r with
  | Val _ => 0
  | SysExit code => code
  | Raise _ => 1
  end%Z.

(** One run of the hook: its exit status and what it did. *)
Definition run_hook (w : World) : Z * list event :=
  let (r, trace) := main w in (exit_status r, trace).

(** *** Reading a trace *)

Definition is_run (e : event) : bool :=
  match e with EvRun _ _ => true | _ => false end.

Definition is_which (e : event) : bool :=
  match e with EvWhich _ => true | _ => false end.

Definition is_read_stdin (e : event) : bool :=
  match e with EvReadStdin => true | _ => false end.

(** The command lines launched, with their timeouts. *)
Definition invocations (trace : list event) : list (list pystr * N) :=
  flat_map (fun e => match e with EvRun argv t => [(argv, t)] | _ => [] end)
           trace.

(** *** Sample worlds *)

Definition no_commands : pystr -> option pystr := fun _ => None.

Definition only (cmd path : pystr) : pystr -> option pystr :=
  fun c => if PyStr.eqb c cmd then Some path else None.

Definition always (p : process) : list pystr -> process := fun _ => p.

Definition sample_world (config : file_state) (input : pystr)
    (wh : pystr -> option pystr) (p : process) : World :=
  {| config_file := config; stdin := StdinText input;
     which := wh; spawn := always p; recursion_room := 990 |}.

(* ===================================================================== *)
(** ** What a run depends on *)
(* ===================================================================== *)

(** The value decoded from the preference file, when it is there and its
    text decodes. *)
Definition config_json (w : World) : option value :=
  match config_file w with
  | FileText text => Json.loads (recursion_room w) text
  | FileMissing | FileUnreadable | FileUndecodable => None
  end.

(** The value decoded from standard input, when its text decodes. *)
Definition stdin_json (w : World) : option value :=
  match stdin w with
  | StdinText text => Json.loads (recursion_room w) text
  | StdinUndecodable => None
  end.

(** The preference file is a JSON object in which [audio_off] is present
    and literally [true]. *)
Definition audio_disabled (w : World) : bool :=
  match config_json w with
  | Some (JObj d) =>
      match dict_lookup d (str "audio_off") with
      | Some (JBool true) => true
      | _ => false
      end
  | _ => false
  end.

(** A field that is absent, or present with a value that is not a string. *)
Definition absent_or_not_string (field : option value) : bool :=
  match field with
  | Some (JStr _) => false
  | _ => true
  end.

(** The configuration as the design describes the loader: all defaults
    unless the file holds a JSON object; from an object, [audio_off] is
    copied when it is a boolean and [speech_command], trimmed, when it is a
    string. *)
Definition copied_audio_off (v : value) : option bool :=
  match v with JBool b => Some b | _ => None end.

Definition copied_speech_command (v : value) : option pystr :=
  match v with JStr s => Some (strip s) | _ => None end.

Definition expected_config (w : World) : UserConfig :=
  match config_json w with
  | Some (JObj d) =>
      {| audio_off := copied_audio_off (get d (str "audio_off"));
         speech_command := copied_speech_command (get d (str "speech_command")) |}
  | _ => default_config
  end.

(** The candidates probed, in order, up to the first one on the path. *)
Fixpoint probed (wh : pystr -> option pystr) (candidates : list pystr)
    : list pystr :=
  match candidates with
  | [] => []
  | cmd :: rest => cmd :: (if truthy (wh cmd) then [] else probed wh rest)
  end.

(** The first candidate on the path. *)
Definition first_found (wh : pystr -> option pystr) (candidates : list pystr)
    : option pystr :=
  find (fun cmd => truthy (wh cmd)) candidates.

(** The invocation fails: the command cannot be launched, does not finish
    within [timeout] seconds, or finishes with a non-zero status. *)
Definition dispatch_fails (p : process) (timeout : N) : bool :=
  match p with
  | CannotLaunch | NeverExits => true
  | ExitsAfter millis returncode =>
      (1000 * timeout <=? millis) || negb (returncode =? 0)%Z
  end.

(** *** Runs that reach the resolver *)

(** Audio is not disabled and standard input decodes to a notification
    whose message is the string [m]. *)
Definition valid_notification (w : World) (m : pystr) : Prop :=
  audio_disabled w = false
  /\ exists d, stdin_json w = Some (JObj d)
       /\ dict_lookup d (str "hook_event_name") = Some (JStr (str "Notification"))
       /\ dict_lookup d (str "message") = Some (JStr m).

(** With the configuration the loader returns, resolution yields [cmd]. *)
Definition resolves_to (w : World) (cmd : pystr) : Prop :=
  exists cfg t1 t2,
    get_user_config w = (Val cfg, t1)
    /\ configured_or_default cfg w = (Val (Some cmd), t2).

(** *** The run, stage by stage

    [stages] lays out what [main] does as one case analysis on the inputs;
    [main_run] below shows that it is [main]. *)

(** Command resolution: the command chosen and the probes it took. *)
Definition resolution (cfg : UserConfig) (w : World)
    : option pystr * list event :=
  if truthy (speech_command cfg) then (speech_command cfg, [])
  else (first_found (which w) default_candidates,
        map EvWhich (probed (which w) default_candidates)).

(** From the resolved command to the end of the run. *)
Definition dispatch (w : World) (message : pystr) (resolved : option pystr)
    : outcome unit * list event :=
  match resolved with
  | None => (SysExit 2, [])
  | Some cmd =>
      match Shlex.split cmd with
      | inl e => (Raise (ValueError e), [])
      | inr words =>
          (if dispatch_fails (spawn w (words ++ [message])) 10
           then SysExit 2 else Val tt,
           [EvRun (words ++ [message]) 10])
      end
  end.

Definition stages (w : World) : outcome unit * list event :=
  if audio_disabled w then (SysExit 0, [EvReadConfig])
  else
    match stdin_json w with
    | Some (JObj d) =>
        if differs_from (get d (str "hook_event_name")) (str "Notification")
        then (SysExit 0, [EvReadConfig; EvReadStdin])
        else
          match get d (str "message") with
          | JStr m =>
              let (resolved, t1) := resolution (expected_config w) w in
              let (r, t2) := dispatch w (strip m) resolved in
              (r, EvReadConfig :: EvReadStdin :: t1 ++ t2)
          | _ => (SysExit 2, [EvReadConfig; EvReadStdin])
          end
    | _ => (SysExit 2, [EvReadConfig; EvReadStdin])
    end.

(** *** Sample inputs *)

Definition notification_hi : pystr :=
  dq "{'hook_event_name':'Notification','message':'Hi'}".

(** Audio switched off, and standard input that is not JSON. *)
Definition world_audio_off : World :=
  sample_world (FileText (dq "{'audio_off': true}")) (str "{ not json")
    no_commands CannotLaunch.

(** A notification whose message is a number. *)
Definition world_bad_message : World :=
  sample_world (FileText (str "{}"))
    (dq "{'hook_event_name':'Notification','message':7}")
    no_commands CannotLaunch.

(** Another event kind, with a command on the path that would speak. *)
Definition world_other_event : World :=
  sample_world (FileText (str "{}"))
    (dq "{'hook_event_name':'PreToolUse','message':'Hi'}")
    (only (str "say") (str "/usr/bin/say")) (ExitsAfter 300 0).

(** An event of another kind that carries no message. *)
Definition world_no_message : World :=
  sample_world FileMissing (dq "{'hook_event_name':'Stop'}")
    (only (str "say") (str "/usr/bin/say")) (ExitsAfter 300 0).

(** A configured command with a quote that is never closed, and a
    well-formed notification. *)
Definition world_unclosed_quote : World :=
  sample_world (FileText (dq "{'speech_command': 'say \''}"))
    notification_hi no_commands (ExitsAfter 300 0).

(** A notification, a configured command that is blank, and no speech
    utility on the path. *)
Definition world_no_command : World :=
  sample_world (FileText (dq "{'speech_command': '   '}")) notification_hi
    no_commands (ExitsAfter 300 0).

(** The decoded notification of [notification_hi]. *)
Definition event_hi : dict :=
  [(str "hook_event_name", JStr (str "Notification"));
   (str "message", JStr (str "Hi"))].

(** What the loader returns there: the configured command is blank. *)
Definition blank_config : UserConfig :=
  {| audio_off := None; speech_command := Some [] |}.

(** A notification, [say] on the path, and a process that never exits. *)
Definition world_hangs : World :=
  sample_world FileMissing notification_hi
    (only (str "say") (str "/usr/bin/say")) NeverExits.

(** A configured command with a flag, and a message with blanks around. *)
Definition world_build_finished : World :=
  sample_world (FileText (dq "{'speech_command': 'say --rate=200'}"))
    (dq "{'hook_event_name':'Notification','message':'  Build finished  '}")
    no_commands (ExitsAfter 300 0).

Definition event_build_finished : dict :=
  [(str "hook_event_name", JStr (str "Notification"));
   (str "message", JStr (str "  Build finished  "))].

(** A configured command that does not exist, while [say] is on the path. *)
Definition world_missing_command : World :=
  sample_world (FileText (dq "{'speech_command': ' nosuchcmd '}"))
    notification_hi (only (str "say") (str "/usr/bin/say")) CannotLaunch.

(* ===================================================================== *)
(** ** Further vocabulary *)
(* ===================================================================== *)

(** Every character of [s] is white space to [str.strip]. *)
Definition all_space (s : pystr) : bool := forallb isspace s.

(** [t] neither begins nor ends with white space. *)
Definition no_outer_space (t : pystr) : bool :=
  match t with
  | [] => true
  | c :: _ => negb (isspace c) && negb (isspace (last t c))
  end.

(** [s] holds no quote and no backslash. *)
Definition plain (s : pystr) : bool :=
  forallb (fun c => negb (mem c Shlex.quotes) && negb (mem c Shlex.escape)) s.

(** The lexer has a token under way, or has emitted one. *)
Definition under_way (st : Shlex.state) (token : pystr) (quoted : bool)
    (acc : list pystr) : Prop :=
  acc <> [] \/ Shlex.pending token quoted = true
  \/ (exists q, st = Shlex.StQuote q)
  \/ (exists e es, st = Shlex.StEscape e es).

(** [ps] is an initial segment of [l]. *)
Definition initial_segment {A} (ps l : list A) : Prop :=
  exists rest, l = ps ++ rest.

(** The world [w] with another preference file and another standard
    input. *)
Definition with_inputs (w : World) (config : file_state) (input : stdin_state)
    : World :=
  {| config_file := config; stdin := input;
     which := which w; spawn := spawn w;
     recursion_room := recursion_room w |}.

(** *** More sample inputs *)

(** [audio_off] given as the string ["true"], not as a boolean. *)
Definition world_audio_off_string : World :=
  sample_world (FileText (dq "{'audio_off': 'true'}")) notification_hi
    (only (str "say") (str "/usr/bin/say")) (ExitsAfter 300 0).

(** A preference file and an event with fields the hook does not know. *)
Definition config_with_theme : pystr :=
  dq "{'theme': 'dark', 'speech_command': 'say', 'volume': 3}".

Definition config_plain : pystr := dq "{'speech_command': 'say'}".

Definition notification_with_session : pystr :=
  dq "{'session_id': 'abc', 'hook_event_name':'Notification','message':'Hi', 'cwd': null}".

(** A notification whose message is blank. *)
Definition world_blank_message : World :=
  sample_world (FileText (str "{}"))
    (dq "{'hook_event_name':'Notification','message':'   '}")
    (only (str "say") (str "/usr/bin/say")) (ExitsAfter 300 0).

(** A preference file that holds a JSON array. *)
Definition world_array_config : World :=
  sample_world (FileText (dq "['audio_off', true]")) notification_hi
    (only (str "espeak") (str "/usr/bin/espeak")) (ExitsAfter 300 0).

(* ===================================================================== *)
(** ** The library models on samples *)
(* ===================================================================== *)

Lemma pystr_eqb_spec (a b : pystr) : reflect (a = b) (PyStr.eqb a b).
Proof.
  revert b; induction a as [|x a IH]; intros [|y b]; simpl;
    try (constructor; congruence).
  destruct (N.eqb_spec x y) as [->|Hxy]; simpl.
  - destruct (IH b) as [->|Hab]; constructor; congruence.
  - constructor; congruence.
Qed.

Lemma pystr_eqb_refl (a : pystr) : PyStr.eqb a a = true.
Proof. destruct (pystr_eqb_spec a a); congruence. Qed.

Example shlex_flags :
  Shlex.split (str "say --rate=200") = inr [str "say"; str "--rate=200"].
Proof. reflexivity. Qed.

Example shlex_unclosed : Shlex.split (dq "say '") = inl Shlex.NoClosingQuotation.
Proof. reflexivity. Qed.

Example shlex_samples :
  Shlex.split (dq "a''b  c") = inr [str "ab"; str "c"]
  /\ Shlex.split (str "''") = inr [[]]
  /\ Shlex.split (str "a\") = inl Shlex.NoEscapedCharacter
  /\ Shlex.split (dq "'a\nb\'c' d") = inr [dq "a\nb'c"; str "d"]
  /\ Shlex.split (str "#x y") = inr [str "#x"; str "y"]
  /\ Shlex.split [32; 11; 32; 120] = inr [[11]; [120]].
Proof. repeat split; reflexivity. Qed.

Example loads_object :
  Json.loads 100 (dq "{'a': 1, 'b': [true, null, 'x\u00e9'], 'a': -2.5e3}")
  = Some (JObj [(str "a", JFloat (str "-2.5e3"));
                (str "b", JArr [JBool true; JNull; JStr [120; 233]])]).
Proof. reflexivity. Qed.

Example scenario_hi :
  run_hook (sample_world (FileText (str "{}"))
              (dq "{'hook_event_name':'Notification','message':'Hi'}")
              (only (str "espeak") (str "/usr/bin/espeak"))
              (ExitsAfter 300 0))
  = (0%Z, [EvReadConfig; EvReadStdin;
           EvWhich (str "say"); EvWhich (str "spd-say"); EvWhich (str "espeak");
           EvRun [str "espeak"; str "Hi"] 10]).
Proof. reflexivity. Qed.

(* ===================================================================== *)
(** ** Running the hook by hand *)
(* ===================================================================== *)

Section Execution.

Variable w : World.

Lemma get_user_config_run :
  get_user_config w = (Val (expected_config w), [EvReadConfig]).
Proof.
  unfold get_user_config, expected_config, config_json, bind, try_except,
    read_text, json_loads, ret.
  destruct (config_file w); simpl; try reflexivity.
  destruct (Json.loads (recursion_room w) text) as [v|]; simpl;
    [|reflexivity].
  destruct v; simpl; try reflexivity.
  destruct (get d (str "audio_off")), (get d (str "speech_command"));
    reflexivity.
Qed.

Lemma get_user_config_inv cfg tr :
  get_user_config w = (Val cfg, tr) -> cfg = expected_config w.
Proof. rewrite get_user_config_run. congruence. Qed.

Lemma audio_disabled_expected :
  is_True (audio_off (expected_config w)) = audio_disabled w.
Proof.
  unfold expected_config, audio_disabled, get.
  destruct (config_json w) as [[]|]; simpl; try reflexivity.
  destruct (dict_lookup d (str "audio_off")) as [[]|]; reflexivity.
Qed.

(** Reading and decoding standard input under [except Exception]. *)
Lemma read_event_run :
  try_except (text <- stdin_read ;; json_loads text) (sys_exit 2) w
  = (match stdin_json w with Some v => Val v | None => SysExit 2 end,
     [EvReadStdin]).
Proof.
  unfold try_except, bind, stdin_read, json_loads, sys_exit, stdin_json.
  destruct (stdin w); simpl; [reflexivity|].
  destruct (Json.loads (recursion_room w) text); reflexivity.
Qed.

Lemma first_on_path_run candidates :
  first_on_path candidates w
  = (Val (first_found (which w) candidates),
     map EvWhich (probed (which w) candidates)).
Proof.
  induction candidates as [|cmd rest IH]; simpl; [reflexivity|].
  unfold bind, shutil_which; simpl.
  destruct (truthy (which w cmd)); simpl; [reflexivity|].
  rewrite IH. reflexivity.
Qed.

(** Launching under [except Exception]. *)
Lemma launch_run argv :
  try_except (subprocess_run argv true 10 ;; ret tt) (sys_exit 2) w
  = (if dispatch_fails (spawn w argv) 10 then SysExit 2 else Val tt,
     [EvRun argv 10]).
Proof.
  unfold try_except, bind, subprocess_run, sys_exit, ret, dispatch_fails.
  destruct (spawn w argv) as [|millis rc|]; simpl; try reflexivity.
  change (1000 * 10) with 10000.
  rewrite N.leb_antisym.
  destruct (millis <? 10000); simpl; [|reflexivity].
  destruct (rc =? 0)%Z; reflexivity.
Qed.

End Execution.

Lemma configured_or_default_run (cfg : UserConfig) (w : World) :
  configured_or_default cfg w
  = (Val (fst (resolution cfg w)), snd (resolution cfg w)).
Proof.
  unfold configured_or_default, resolution.
  destruct (truthy (speech_command cfg)); [reflexivity|].
  apply first_on_path_run.
Qed.

Lemma main_run (w : World) : main w = stages w.
Proof.
  unfold main, stages.
  unfold bind at 1. rewrite get_user_config_run.
  unfold bind at 1. rewrite audio_disabled_expected.
  destruct (audio_disabled w); simpl; [reflexivity|].
  unfold bind at 1. rewrite read_event_run.
  destruct (stdin_json w) as [v|]; [|reflexivity].
  destruct v; try reflexivity.
  unfold bind at 1.
  destruct (differs_from (get d (str "hook_event_name")) (str "Notification"));
    simpl; [reflexivity|].
  destruct (get d (str "message")); try reflexivity.
  unfold bind at 1. rewrite configured_or_default_run.
  destruct (resolution (expected_config w) w) as [resolved t1]; simpl.
  destruct resolved as [cmd|]; simpl; [|rewrite app_nil_r; reflexivity].
  unfold bind at 1, shlex_split.
  destruct (Shlex.split cmd) as [e|words]; simpl.
  - rewrite app_nil_r. reflexivity.
  - rewrite launch_run. reflexivity.
Qed.

Lemma differs_from_lookup (d : dict) (k s : pystr) :
  dict_lookup d k <> Some (JStr s) -> differs_from (get d k) s = true.
Proof.
  unfold get. intros H.
  destruct (dict_lookup d k) as [v|]; [|reflexivity].
  destruct v; try reflexivity. simpl.
  destruct (pystr_eqb_spec s0 s) as [->|]; [congruence|reflexivity].
Qed.

Lemma same_as_lookup (d : dict) (k s : pystr) :
  dict_lookup d k = Some (JStr s) -> differs_from (get d k) s = false.
Proof.
  unfold get. intros ->. simpl. now rewrite pystr_eqb_refl.
Qed.

Lemma not_string_lookup (d : dict) (k : pystr) :
  absent_or_not_string (dict_lookup d k) = true ->
  forall m, get d k <> JStr m.
Proof.
  unfold get. destruct (dict_lookup d k) as [v|]; [|discriminate].
  destruct v; simpl; congruence.
Qed.

Lemma audio_disabled_true (w : World) (text : pystr) (d : dict) :
  config_file w = FileText text ->
  Json.loads (recursion_room w) text = Some (JObj d) ->
  dict_lookup d (str "audio_off") = Some (JBool true) ->
  audio_disabled w = true.
Proof.
  intros Hf Hj Ha. unfold audio_disabled, config_json.
  now rewrite Hf, Hj, Ha.
Qed.

(* ===================================================================== *)
(** ** Properties *)
(* ===================================================================== *)

(** A valid notification, by decoding the sample input. *)
Ltac notification d :=
  split; [reflexivity | exists d; repeat split; reflexivity].

(** C1.  When the preference file is a JSON object in which [audio_off] is
    present and literally [true], the hook leaves through [sys.exit(0)]
    having only read the preference file: whatever standard input holds, it
    is not read, and no command is launched. *)
Theorem audio_off_short_circuit (w : World) (text : pystr) (d : dict) :
  config_file w = FileText text ->
  Json.loads (recursion_room w) text = Some (JObj d) ->
  dict_lookup d (str "audio_off") = Some (JBool true) ->
  main w = (SysExit 0, [EvReadConfig])
  /\ fst (run_hook w) = 0%Z
  /\ existsb is_read_stdin (snd (run_hook w)) = false
  /\ invocations (snd (run_hook w)) = [].
Proof.
  intros Hf Hj Ha.
  assert (Hm : main w = (SysExit 0, [EvReadConfig])).
  { rewrite main_run. unfold stages.
    now rewrite (audio_disabled_true w text d Hf Hj Ha). }
  unfold run_hook. rewrite Hm. repeat split; reflexivity.
Qed.

Lemma audio_off_short_circuit_witness :
  main world_audio_off = (SysExit 0, [EvReadConfig])
  /\ fst (run_hook world_audio_off) = 0%Z
  /\ existsb is_read_stdin (snd (run_hook world_audio_off)) = false
  /\ invocations (snd (run_hook world_audio_off)) = [].
Proof.
  apply (audio_off_short_circuit world_audio_off (dq "{'audio_off': true}")
           [(str "audio_off", JBool true)]); reflexivity.
Defined.

(** C2.  When audio is not disabled, the hook leaves through [sys.exit(2)]
    in each of these cases: standard input does not decode as JSON; it
    decodes to a value that is not an object; it decodes to an object whose
    [hook_event_name] is ["Notification"] and whose [message] is absent or
    not a string. *)
Theorem protocol_errors_exit_2 (w : World) :
  audio_disabled w = false ->
  stdin_json w = None
  \/ (exists v, stdin_json w = Some v /\ forall d, v <> JObj d)
  \/ (exists d, stdin_json w = Some (JObj d)
        /\ dict_lookup d (str "hook_event_name") = Some (JStr (str "Notification"))
        /\ absent_or_not_string (dict_lookup d (str "message")) = true) ->
  main w = (SysExit 2, [EvReadConfig; EvReadStdin])
  /\ fst (run_hook w) = 2%Z.
Proof.
  intros Hon Hbad.
  assert (Hm : main w = (SysExit 2, [EvReadConfig; EvReadStdin])).
  { rewrite main_run. unfold stages. rewrite Hon.
    destruct Hbad as [-> | [(v & -> & Hv) | (d & -> & Hk & Hmsg)]].
    - reflexivity.
    - destruct v; try reflexivity. now destruct (Hv d).
    - rewrite (same_as_lookup _ _ _ Hk).
      pose proof (not_string_lookup _ _ Hmsg) as Hn.
      destruct (get d (str "message")); try reflexivity.
      now destruct (Hn s). }
  unfold run_hook. rewrite Hm. split; reflexivity.
Qed.

Lemma protocol_errors_exit_2_witness :
  main world_bad_message = (SysExit 2, [EvReadConfig; EvReadStdin])
  /\ fst (run_hook world_bad_message) = 2%Z.
Proof.
  apply (protocol_errors_exit_2 world_bad_message); [reflexivity|].
  right; right.
  exists [(str "hook_event_name", JStr (str "Notification"));
          (str "message", JInt 7)].
  repeat split; reflexivity.
Defined.

(** C8.  When audio is not disabled and standard input decodes to a JSON
    object whose [hook_event_name] is anything but the string
    ["Notification"] (absent, another string, or not a string), the hook
    leaves through [sys.exit(0)] and launches no command. *)
Theorem other_events_are_ignored (w : World) (d : dict) :
  audio_disabled w = false ->
  stdin_json w = Some (JObj d) ->
  dict_lookup d (str "hook_event_name") <> Some (JStr (str "Notification")) ->
  main w = (SysExit 0, [EvReadConfig; EvReadStdin])
  /\ fst (run_hook w) = 0%Z
  /\ invocations (snd (run_hook w)) = [].
Proof.
  intros Hon Hin Hk.
  assert (Hm : main w = (SysExit 0, [EvReadConfig; EvReadStdin])).
  { rewrite main_run. unfold stages. rewrite Hon, Hin.
    now rewrite (differs_from_lookup _ _ _ Hk). }
  unfold run_hook. rewrite Hm. repeat split; reflexivity.
Qed.

Lemma other_events_are_ignored_witness :
  main world_other_event = (SysExit 0, [EvReadConfig; EvReadStdin])
  /\ fst (run_hook world_other_event) = 0%Z
  /\ invocations (snd (run_hook world_other_event)) = [].
Proof.
  apply (other_events_are_ignored world_other_event
           [(str "hook_event_name", JStr (str "PreToolUse"));
            (str "message", JStr (str "Hi"))]);
    [reflexivity | reflexivity | discriminate].
Defined.

(** C10.  [message] is looked at only after the event kind: whenever
    standard input decodes to a JSON object whose [hook_event_name] is not
    ["Notification"], the exit status is 0, and in particular it is not 2
    when [message] is absent or not a string. *)
Theorem message_checked_after_event_kind (w : World) (d : dict) :
  stdin_json w = Some (JObj d) ->
  dict_lookup d (str "hook_event_name") <> Some (JStr (str "Notification")) ->
  fst (run_hook w) = 0%Z
  /\ (absent_or_not_string (dict_lookup d (str "message")) = true ->
      fst (run_hook w) <> 2%Z).
Proof.
  intros Hin Hk.
  assert (Hz : fst (run_hook w) = 0%Z).
  { unfold run_hook. rewrite main_run. unfold stages.
    destruct (audio_disabled w); [reflexivity|].
    now rewrite Hin, (differs_from_lookup _ _ _ Hk). }
  split; [exact Hz | intros _; rewrite Hz; discriminate].
Qed.

Lemma message_checked_after_event_kind_witness :
  fst (run_hook world_no_message) = 0%Z
  /\ fst (run_hook world_no_message) <> 2%Z.
Proof.
  destruct (message_checked_after_event_kind world_no_message
              [(str "hook_event_name", JStr (str "Stop"))])
    as (Hzero & Hnot2); [reflexivity | discriminate |].
  split; [exact Hzero | apply Hnot2; reflexivity].
Defined.

(** C7.  The loader always returns a configuration: it never raises and
    never exits.  The configuration is all defaults when the file is
    missing, unreadable, not text, empty, not JSON, or JSON that is not an
    object.  From an object, [audio_off] is the field's value when that is a
    boolean and [speech_command] is the field's value, trimmed, when that is
    a string; each is [None] otherwise. *)
Theorem config_loader_total (w : World) :
  exists cfg,
    get_user_config w = (Val cfg, [EvReadConfig])
    /\ (config_file w = FileMissing \/ config_file w = FileUnreadable
        \/ config_file w = FileUndecodable \/ config_file w = FileText [] ->
        cfg = default_config)
    /\ (forall text, config_file w = FileText text ->
        Json.loads (recursion_room w) text = None -> cfg = default_config)
    /\ (forall text v, config_file w = FileText text ->
        Json.loads (recursion_room w) text = Some v ->
        (forall d, v <> JObj d) -> cfg = default_config)
    /\ (forall text d, config_file w = FileText text ->
        Json.loads (recursion_room w) text = Some (JObj d) ->
        audio_off cfg
        = match dict_lookup d (str "audio_off") with
          | Some (JBool b) => Some b
          | _ => None
          end
        /\ speech_command cfg
           = match dict_lookup d (str "speech_command") with
             | Some (JStr s) => Some (strip s)
             | _ => None
             end)
    /\ default_config = {| audio_off := None; speech_command := None |}.
Proof.
  exists (expected_config w). split; [apply get_user_config_run|].
  unfold expected_config, config_json.
  split; [|split; [|split; [|split]]].
  - intros [-> | [-> | [-> | ->]]]; reflexivity.
  - intros text -> ->. reflexivity.
  - intros text v -> -> Hv. destruct v; try reflexivity. now destruct (Hv d).
  - intros text d -> ->. unfold get. simpl. split.
    + destruct (dict_lookup d (str "audio_off")) as [[]|]; reflexivity.
    + destruct (dict_lookup d (str "speech_command")) as [[]|]; reflexivity.
  - reflexivity.
Qed.

Example config_loader_samples :
  fst (get_user_config
         (sample_world
            (FileText (dq "{'audio_off': 1, 'speech_command': '  say -v Kate '}"))
            [] no_commands NeverExits))
  = Val {| audio_off := None; speech_command := Some (str "say -v Kate") |}
  /\ fst (get_user_config
            (sample_world
               (FileText (dq "{'audio_off': false, 'speech_command': ['say']}"))
               [] no_commands NeverExits))
     = Val {| audio_off := Some false; speech_command := None |}
  /\ fst (get_user_config
            (sample_world (FileText (dq "['audio_off']")) [] no_commands
               NeverExits))
     = Val default_config.
Proof. repeat split; reflexivity. Qed.

(** *** The one way out that is neither 0 nor 2 *)

(** C3.  The claim is that every run ends with status 0 or 2 and that no
    exception escapes.  [shlex.split] is called outside the two [try]
    blocks: on a configured command with an unclosed quote it raises
    [ValueError], nothing catches it, and the interpreter exits with
    status 1. *)
Theorem unclosed_quote_escapes :
  main world_unclosed_quote
  = (Raise (ValueError Shlex.NoClosingQuotation), [EvReadConfig; EvReadStdin])
  /\ fst (run_hook world_unclosed_quote) = 1%Z.
Proof. split; reflexivity. Qed.

(** Apart from that, the status is 0 or 2: an exception leaves [main] only
    from [shlex.split], on the resolved command. *)
Lemma exit_status_cases (w : World) :
  fst (run_hook w) = 0%Z \/ fst (run_hook w) = 2%Z
  \/ (fst (run_hook w) = 1%Z
      /\ exists cmd e,
           fst (resolution (expected_config w) w) = Some cmd
           /\ Shlex.split cmd = inl e
           /\ fst (main w) = Raise (ValueError e)).
Proof.
  unfold run_hook. rewrite main_run. unfold stages.
  destruct (audio_disabled w); [now left|].
  destruct (stdin_json w) as [[]|]; try (now right; left).
  destruct (differs_from _ _); [now left|].
  destruct (get d (str "message")); try (now right; left).
  destruct (resolution (expected_config w) w) as [[cmd|] t1]; simpl;
    [|now right; left].
  destruct (Shlex.split cmd) as [e|words] eqn:Hs; simpl.
  - right; right. split; [reflexivity|]. now exists cmd, e.
  - destruct (dispatch_fails _ _); [now right; left | now left].
Qed.

Lemma stages_notification (w : World) (m : pystr) :
  valid_notification w m ->
  stages w
  = (fst (dispatch w (strip m) (fst (resolution (expected_config w) w))),
     EvReadConfig :: EvReadStdin
       :: snd (resolution (expected_config w) w)
       ++ snd (dispatch w (strip m) (fst (resolution (expected_config w) w)))).
Proof.
  intros (Hon & d & Hin & Hk & Hm). unfold stages.
  rewrite Hon, Hin, (same_as_lookup _ _ _ Hk).
  unfold get at 1. rewrite Hm.
  destruct (resolution (expected_config w) w) as [resolved t1]; simpl.
  destruct (dispatch w (strip m) resolved); reflexivity.
Qed.

Lemma resolves_to_resolution (w : World) (cmd : pystr) :
  resolves_to w cmd -> fst (resolution (expected_config w) w) = Some cmd.
Proof.
  intros (cfg & t1 & t2 & Hc & Hr).
  apply get_user_config_inv in Hc. subst cfg.
  rewrite configured_or_default_run in Hr. congruence.
Qed.

Lemma invocations_app (t1 t2 : list event) :
  invocations (t1 ++ t2) = invocations t1 ++ invocations t2.
Proof. unfold invocations. now rewrite flat_map_app. Qed.

Lemma invocations_probes (l : list pystr) : invocations (map EvWhich l) = [].
Proof. induction l; simpl; auto. Qed.

Lemma invocations_resolution (cfg : UserConfig) (w : World) :
  invocations (snd (resolution cfg w)) = [].
Proof.
  unfold resolution. destruct (truthy (speech_command cfg)); simpl;
    [reflexivity | apply invocations_probes].
Qed.

Lemma in_invocations (argv : list pystr) (t : N) (tr : list event) :
  In (EvRun argv t) tr <-> In (argv, t) (invocations tr).
Proof.
  unfold invocations. rewrite in_flat_map. split.
  - intros H. exists (EvRun argv t). split; [exact H | now left].
  - intros (e & He & Hin). destruct e; simpl in Hin; try contradiction.
    destruct Hin as [Heq|[]]. now inversion Heq; subst.
Qed.

(** The launches of a run, and how it ends when there is one. *)
Lemma stages_invocations (w : World) :
  invocations (snd (stages w)) = []
  \/ exists argv,
       invocations (snd (stages w)) = [(argv, 10)]
       /\ fst (stages w)
          = if dispatch_fails (spawn w argv) 10 then SysExit 2 else Val tt.
Proof.
  unfold stages.
  destruct (audio_disabled w); [now left|].
  destruct (stdin_json w) as [[]|]; try (now left).
  destruct (differs_from _ _); [now left|].
  destruct (get d (str "message")); try (now left).
  pose proof (invocations_resolution (expected_config w) w) as Hr.
  destruct (resolution (expected_config w) w) as [[cmd|] t1]; simpl in *.
  - destruct (Shlex.split cmd) as [e|words]; simpl.
    + left. now rewrite invocations_app, Hr.
    + right. exists (words ++ [strip s]).
      rewrite invocations_app, Hr. split; reflexivity.
  - left. now rewrite invocations_app, Hr.
Qed.

(** C4.  Resolution, for any configuration: a [speech_command] that is not
    empty is the command used, and nothing is probed; otherwise ["say"],
    ["spd-say"], ["espeak"] are probed in that order up to the first one on
    the path, which is the command used.  With the configuration the loader
    returned: a [speech_command] of the preference file that is not empty
    after trimming is used, trimmed; and in a run that reaches the resolver,
    when neither gives a command the hook leaves through [sys.exit(2)]. *)
Theorem command_resolution (w : World) (cfg : UserConfig) :
  (forall cmd, speech_command cfg = Some cmd -> cmd <> [] ->
     configured_or_default cfg w = (Val (Some cmd), []))
  /\ (speech_command cfg = None \/ speech_command cfg = Some [] ->
      configured_or_default cfg w
      = (Val (find (fun cmd => truthy (which w cmd))
                [str "say"; str "spd-say"; str "espeak"]),
         map EvWhich
           (probed (which w) [str "say"; str "spd-say"; str "espeak"])))
  /\ (fst (get_user_config w) = Val cfg ->
      (forall d s,
         config_json w = Some (JObj d) ->
         dict_lookup d (str "speech_command") = Some (JStr s) ->
         strip s <> [] ->
         configured_or_default cfg w = (Val (Some (strip s)), []))
      /\ (forall m,
            valid_notification w m ->
            fst (configured_or_default cfg w) = Val None ->
            fst (main w) = SysExit 2 /\ fst (run_hook w) = 2%Z
            /\ invocations (snd (main w)) = [])).
Proof.
  assert (Hset : forall cmd, speech_command cfg = Some cmd -> cmd <> [] ->
            configured_or_default cfg w = (Val (Some cmd), [])).
  { intros cmd Hs Hne. unfold configured_or_default. rewrite Hs.
    destruct cmd; [congruence | reflexivity]. }
  split; [exact Hset|]. split.
  - intros Hs. rewrite configured_or_default_run. unfold resolution.
    destruct Hs as [-> | ->]; reflexivity.
  - intros Hc.
    assert (Hcfg : cfg = expected_config w).
    { rewrite get_user_config_run in Hc. simpl in Hc. congruence. }
    split.
    + intros d s Hj Hl Hne. apply Hset; [|exact Hne].
      subst cfg. unfold expected_config, get. now rewrite Hj, Hl.
    + intros m Hv Hn. rewrite configured_or_default_run in Hn. simpl in Hn.
      assert (Hr : fst (resolution (expected_config w) w) = None)
        by (subst cfg; congruence).
      unfold run_hook. rewrite main_run, (stages_notification w m Hv), Hr.
      simpl. rewrite app_nil_r, invocations_resolution. repeat split.
Qed.

Lemma command_resolution_witness :
  configured_or_default blank_config world_no_command
  = (Val None, [EvWhich (str "say"); EvWhich (str "spd-say");
                EvWhich (str "espeak")])
  /\ fst (main world_no_command) = SysExit 2
  /\ fst (run_hook world_no_command) = 2%Z
  /\ invocations (snd (main world_no_command)) = [].
Proof.
  destruct (command_resolution world_no_command blank_config)
    as (_ & Hprobe & Hrun).
  split.
  - apply Hprobe. right. reflexivity.
  - destruct Hrun as (_ & Hnone); [reflexivity|].
    apply (Hnone (str "Hi")); [notification event_hi | reflexivity].
Defined.

Example no_command_exits_2 :
  run_hook world_no_command
  = (2%Z, [EvReadConfig; EvReadStdin; EvWhich (str "say");
           EvWhich (str "spd-say"); EvWhich (str "espeak")]).
Proof. reflexivity. Qed.

(** C5.  A run launches at most one command.  In a run that reaches the
    dispatcher with a command split into [words], the launch is that of
    [words] followed by the message, once, with a timeout of 10 seconds.
    When a launch fails (the command cannot be launched, does not finish in
    time, or finishes with a non-zero status) the exception is caught and
    the hook leaves through [sys.exit(2)]; when it succeeds [main] returns.
    No exception leaves a run that launched a command. *)
Theorem dispatch_containment (w : World) :
  (List.length (invocations (snd (main w))) <= 1)%nat
  /\ (forall m cmd words,
        valid_notification w m -> resolves_to w cmd ->
        Shlex.split cmd = inr words ->
        invocations (snd (main w)) = [(words ++ [strip m], 10)])
  /\ (forall argv t,
        In (EvRun argv t) (snd (main w)) ->
        t = 10
        /\ invocations (snd (main w)) = [(argv, 10)]
        /\ (spawn w argv = CannotLaunch \/ spawn w argv = NeverExits
            \/ (exists millis rc, spawn w argv = ExitsAfter millis rc
                  /\ (10000 <= millis \/ rc <> 0%Z)) ->
            fst (main w) = SysExit 2 /\ fst (run_hook w) = 2%Z)
        /\ (forall millis, spawn w argv = ExitsAfter millis 0 ->
            millis < 10000 ->
            fst (main w) = Val tt /\ fst (run_hook w) = 0%Z)
        /\ forall e, fst (main w) <> Raise e).
Proof.
  split; [|split].
  - rewrite main_run.
    destruct (stages_invocations w) as [-> | (argv & -> & _)]; simpl; lia.
  - intros m cmd words Hv Hr Hs.
    rewrite main_run, (stages_notification w m Hv),
      (resolves_to_resolution w cmd Hr).
    unfold dispatch. rewrite Hs. simpl.
    now rewrite invocations_app, invocations_resolution.
  - intros argv t Hin. unfold run_hook. rewrite main_run in *.
    apply in_invocations in Hin.
    destruct (stages_invocations w) as [H0 | (argv' & H1 & Hend)];
      [rewrite H0 in Hin; contradiction|].
    rewrite H1 in Hin. destruct Hin as [Heq|[]].
    inversion Heq; subst argv' t. clear Heq.
    split; [reflexivity|]. split; [exact H1|].
    destruct (stages w) as [r tr]; simpl in *. subst r.
    split; [|split].
    + intros Hf.
      assert (Hd : dispatch_fails (spawn w argv) 10 = true).
      { destruct Hf as [-> | [-> | (millis & rc & -> & Hc)]];
          try reflexivity.
        simpl. change (1000 * 10) with 10000.
        destruct Hc as [Hc | Hc].
        - apply N.leb_le in Hc. now rewrite Hc.
        - apply Z.eqb_neq in Hc. rewrite Hc. apply orb_true_r. }
      rewrite Hd. split; reflexivity.
    + intros millis -> Hlt. simpl. change (1000 * 10) with 10000.
      apply N.leb_gt in Hlt. rewrite Hlt. split; reflexivity.
    + intros e. destruct (dispatch_fails _ _); discriminate.
Qed.

Example timeout_exits_2 :
  run_hook world_hangs
  = (2%Z, [EvReadConfig; EvReadStdin; EvWhich (str "say");
           EvRun [str "say"; str "Hi"] 10]).
Proof. reflexivity. Qed.

Lemma dispatch_containment_witness :
  invocations (snd (main world_hangs)) = [([str "say"; str "Hi"], 10)]
  /\ fst (main world_hangs) = SysExit 2
  /\ fst (run_hook world_hangs) = 2%Z.
Proof.
  destruct (dispatch_containment world_hangs) as (_ & _ & H).
  destruct (H [str "say"; str "Hi"] 10) as (_ & Hone & Hfail & _).
  - simpl. auto.
  - split; [exact Hone|]. apply Hfail. right. left. reflexivity.
Defined.

(** *** The argument list *)

(** C6, as stated, fails: with a configured command that opens a quote
    and never closes it, and a well-formed notification, the run is one of a valid notification with a
    resolved command string, yet the string does not split and nothing is
    launched. *)
Lemma unsplittable_command_speaks_nothing :
  valid_notification world_unclosed_quote (str "Hi")
  /\ resolves_to world_unclosed_quote (dq "say '")
  /\ ~ (exists words,
          Shlex.split (dq "say '") = inr words
          /\ invocations (snd (main world_unclosed_quote))
             = [(words ++ [strip (str "Hi")], 10)])
  /\ invocations (snd (main world_unclosed_quote)) = [].
Proof.
  split; [notification event_hi|].
  split; [do 3 eexists; split; reflexivity|].
  split; [|reflexivity].
  intros (words & Hs & _). discriminate Hs.
Qed.

(** C6, amended.  For a valid notification with string message [m] and a
    resolved command string that shell-lexical splitting accepts, giving
    [words]: the one launch of the run has the argument list [words] followed
    by [m] trimmed, so the trimmed message is its final argument. *)
Theorem message_is_final_argument (w : World) (cmd m : pystr)
    (words : list pystr) :
  valid_notification w m ->
  resolves_to w cmd ->
  Shlex.split cmd = inr words ->
  invocations (snd (main w)) = [(words ++ [strip m], 10)]
  /\ last (words ++ [strip m]) [] = strip m.
Proof.
  intros Hv Hr Hs. split; [|apply last_last].
  rewrite main_run, (stages_notification w m Hv),
    (resolves_to_resolution w cmd Hr).
  unfold dispatch. rewrite Hs. simpl.
  now rewrite invocations_app, invocations_resolution.
Qed.

Lemma message_is_final_argument_witness :
  invocations (snd (main world_build_finished))
  = [([str "say"; str "--rate=200"] ++ [strip (str "  Build finished  ")], 10)]
  /\ last ([str "say"; str "--rate=200"] ++ [strip (str "  Build finished  ")])
          []
     = strip (str "  Build finished  ").
Proof.
  apply (message_is_final_argument world_build_finished
           (str "say --rate=200") (str "  Build finished  ")
           [str "say"; str "--rate=200"]).
  - notification event_build_finished.
  - do 3 eexists; split; reflexivity.
  - reflexivity.
Defined.

Example build_finished_argv :
  snd (run_hook world_build_finished)
  = [EvReadConfig; EvReadStdin;
     EvRun [str "say"; str "--rate=200"; str "Build finished"] 10].
Proof. reflexivity. Qed.

(** C9.  When the preference file supplies a [speech_command] that is not
    empty after trimming, no candidate is ever probed.  In particular, in a
    run that launches the configured command and finds that it cannot be
    launched, the hook leaves through [sys.exit(2)] having made that one
    launch and no probe: it does not fall back to a default utility. *)
Theorem configured_command_no_fallback (w : World) (d : dict) (s : pystr) :
  config_json w = Some (JObj d) ->
  dict_lookup d (str "speech_command") = Some (JStr s) ->
  strip s <> [] ->
  existsb is_which (snd (main w)) = false
  /\ (forall m words,
        valid_notification w m ->
        Shlex.split (strip s) = inr words ->
        spawn w (words ++ [strip m]) = CannotLaunch ->
        main w = (SysExit 2, [EvReadConfig; EvReadStdin;
                              EvRun (words ++ [strip m]) 10])
        /\ fst (run_hook w) = 2%Z)
  /\ (forall argv t,
        In (EvRun argv t) (snd (main w)) ->
        spawn w argv = CannotLaunch ->
        fst (main w) = SysExit 2
        /\ invocations (snd (main w)) = [(argv, t)]).
Proof.
  intros Hc Hl Hne.
  assert (Hres : resolution (expected_config w) w = (Some (strip s), [])).
  { unfold resolution, expected_config, get. rewrite Hc, Hl. simpl.
    destruct (strip s); [congruence | reflexivity]. }
  split; [|split].
  - rewrite main_run. unfold stages.
    destruct (audio_disabled w); [reflexivity|].
    destruct (stdin_json w) as [[]|]; try reflexivity.
    destruct (differs_from _ _); [reflexivity|].
    destruct (get d0 (str "message")); try reflexivity.
    rewrite Hres. unfold dispatch.
    destruct (Shlex.split (strip s)); reflexivity.
  - intros m words Hv Hs Hsp.
    unfold run_hook. rewrite main_run, (stages_notification w m Hv), Hres.
    unfold dispatch. simpl. rewrite Hs, Hsp. simpl. split; reflexivity.
  - intros argv t Hin Hsp. rewrite main_run in *.
    apply in_invocations in Hin.
    destruct (stages_invocations w) as [H0 | (argv' & H1 & Hend)];
      [rewrite H0 in Hin; contradiction|].
    rewrite H1 in Hin. destruct Hin as [Heq|[]].
    inversion Heq; subst argv' t. rewrite Hend, Hsp. split; [reflexivity|].
    exact H1.
Qed.

Lemma configured_command_no_fallback_witness :
  existsb is_which (snd (main world_missing_command)) = false
  /\ main world_missing_command
     = (SysExit 2, [EvReadConfig; EvReadStdin;
                    EvRun ([str "nosuchcmd"] ++ [strip (str "Hi")]) 10])
  /\ fst (run_hook world_missing_command) = 2%Z.
Proof.
  destruct (configured_command_no_fallback world_missing_command
              [(str "speech_command", JStr (str " nosuchcmd "))]
              (str " nosuchcmd ")) as (Hprobe & Hlaunch & _).
  - reflexivity.
  - reflexivity.
  - discriminate.
  - split; [exact Hprobe|].
    apply (Hlaunch (str "Hi") [str "nosuchcmd"]).
    + notification event_hi.
    + reflexivity.
    + reflexivity.
Defined.

(* ===================================================================== *)
(** ** Further properties of the hook *)
(* ===================================================================== *)

(** *** Trimming *)

Lemma lstrip_split (s : pystr) :
  exists l, s = l ++ lstrip s /\ all_space l = true.
Proof.
  induction s as [|c s (l & Hs & Hl)]; simpl.
  - now exists [].
  - destruct (isspace c) eqn:Hc.
    + exists (c :: l). simpl. rewrite Hc, Hl. split; [now f_equal|reflexivity].
    + now exists [].
Qed.

Lemma lstrip_head (s : pystr) (c : N) (r : pystr) :
  lstrip s = c :: r -> isspace c = false.
Proof.
  induction s as [|x s IH]; simpl; [discriminate|].
  destruct (isspace x) eqn:Hx; [exact IH|].
  intros H. now inversion H; subst.
Qed.

Lemma lstrip_all_space (s : pystr) : all_space s = true -> lstrip s = [].
Proof.
  induction s as [|c s IH]; simpl; [reflexivity|].
  intros H. apply andb_true_iff in H as (Hc & Hs). rewrite Hc. auto.
Qed.

Lemma all_space_rev (s : pystr) : all_space (rev s) = all_space s.
Proof.
  unfold all_space. induction s as [|c s IH]; simpl; [reflexivity|].
  rewrite forallb_app, IH. simpl. rewrite andb_true_r. apply andb_comm.
Qed.

Lemma rstrip_split (s : pystr) :
  exists r, s = rstrip s ++ r /\ all_space r = true.
Proof.
  unfold rstrip. destruct (lstrip_split (rev s)) as (l & Hs & Hl).
  exists (rev l). split.
  - rewrite <- (rev_involutive s), Hs at 1. now rewrite rev_app_distr.
  - now rewrite all_space_rev.
Qed.

Lemma rstrip_last (s : pystr) (c : N) (t : pystr) :
  rstrip s = t ++ [c] -> isspace c = false.
Proof.
  unfold rstrip. intros H.
  apply (f_equal (@rev N)) in H. rewrite rev_involutive, rev_app_distr in H.
  simpl in H. now apply lstrip_head in H.
Qed.

Lemma rstrip_keeps_head (c : N) (s : pystr) :
  isspace c = false -> exists t, rstrip (c :: s) = c :: t.
Proof.
  intros Hc. destruct (rstrip_split (c :: s)) as (r & Hs & Hr).
  destruct (rstrip (c :: s)) as [|x t] eqn:E.
  - simpl in Hs. subst r. simpl in Hr. now rewrite Hc in Hr.
  - simpl in Hs. inversion Hs; subst x. now exists t.
Qed.

(** What [str.strip] returns: the text between the outer white space. *)
Lemma strip_spec (s : pystr) :
  (exists l r, s = l ++ strip s ++ r
               /\ all_space l = true /\ all_space r = true)
  /\ no_outer_space (strip s) = true.
Proof.
  unfold strip. split.
  - destruct (lstrip_split s) as (l & Hs & Hl).
    destruct (rstrip_split (lstrip s)) as (r & Hs' & Hr).
    exists l, r. split; [|easy]. rewrite Hs at 1. now rewrite Hs' at 1.
  - destruct (lstrip s) as [|c t] eqn:E; [reflexivity|].
    pose proof (lstrip_head _ _ _ E) as Hc.
    destruct (rstrip_keeps_head c t Hc) as (u & Hu). rewrite Hu. simpl.
    rewrite Hc. simpl.
    destruct (exists_last (l := c :: u)) as (v & z & Hv); [discriminate|].
    change (match u with [] => c | _ :: _ => last u c end)
      with (last (c :: u) c).
    rewrite Hv, last_last. rewrite Hv in Hu.
    now rewrite (rstrip_last _ _ _ Hu).
Qed.

Lemma strip_all_space (s : pystr) : all_space s = true -> strip s = [].
Proof. intros H. unfold strip. now rewrite (lstrip_all_space s H). Qed.

(** *** Splitting *)

(** Without quotes and backslashes the lexer stays between its blank and
    word states, and ends with a list of words. *)
Lemma lex_plain (s : pystr) :
  plain s = true ->
  forall st token quoted acc,
    st = Shlex.StBlank \/ st = Shlex.StWord ->
    exists words, Shlex.lex st token quoted acc s = inr words.
Proof.
  induction s as [|c s IH]; intros Hp st token quoted acc Hst.
  - destruct Hst as [-> | ->]; simpl;
      destruct (Shlex.pending token quoted); eauto.
  - unfold plain in Hp. cbn [forallb] in Hp. fold (plain s) in Hp.
    apply andb_true_iff in Hp as (Hc & Hp).
    apply andb_true_iff in Hc as (Hq & He).
    apply negb_true_iff in Hq, He.
    destruct Hst as [-> | ->]; cbn [Shlex.lex]; rewrite Hq, He;
      destruct (mem c Shlex.whitespace);
      try destruct (Shlex.pending token quoted); apply IH; auto.
Qed.

Lemma lex_under_way (s : pystr) :
  forall st token quoted acc words,
    under_way st token quoted acc ->
    Shlex.lex st token quoted acc s = inr words -> words <> [].
Proof.
  assert (Hrev : forall (x : pystr) l, rev (x :: l) <> [])
    by (intros x l H; apply (f_equal (@List.length _)) in H;
        rewrite length_rev in H; discriminate).
  assert (Hcons : forall st t q (x : pystr) l, under_way st t q (x :: l))
    by (intros; left; discriminate).
  assert (Htok : forall st c t q acc, under_way st (c :: t) q acc)
    by (intros; right; left; reflexivity).
  assert (Hquo : forall st t acc, under_way st t true acc)
    by (intros st [|? ?] acc; right; left; reflexivity).
  induction s as [|c s IH]; intros st token quoted acc words Hu.
  - destruct st; simpl; try discriminate;
      (destruct (Shlex.pending token quoted) eqn:Hp; intros H; inversion H;
       [apply Hrev|]);
      destruct Hu as [Ha | [Hp' | [(q & Hq) | (e & es & He)]]];
      try congruence;
      (destruct acc; [congruence | apply Hrev]).
  - destruct st; cbn [Shlex.lex].
    + destruct (mem c Shlex.whitespace).
      * destruct (Shlex.pending token quoted) eqn:Hp; apply IH; [apply Hcons|].
        destruct Hu as [Ha | [Hp' | [(q & Hq) | (e & es & He)]]];
          try congruence. now left.
      * destruct (mem c Shlex.escape);
          [apply IH; right; right; right; eauto|].
        destruct (mem c Shlex.quotes);
          [apply IH; right; right; left; eauto | apply IH, Htok].
    + destruct (mem c Shlex.whitespace).
      * destruct (Shlex.pending token quoted) eqn:Hp; apply IH; [apply Hcons|].
        destruct Hu as [Ha | [Hp' | [(q & Hq) | (e & es & He)]]];
          try congruence. now left.
      * destruct (mem c Shlex.quotes);
          [apply IH; right; right; left; eauto|].
        destruct (mem c Shlex.escape);
          [apply IH; right; right; right; eauto | apply IH, Htok].
    + destruct (c =? q); [apply IH, Hquo|].
      destruct (mem c Shlex.escape && mem q Shlex.escapedquotes);
        apply IH; [right; right; right; eauto | apply Htok].
    + apply IH, Htok.
Qed.

(** A command that begins with a character other than the lexer's white
    space splits, if at all, into at least one word. *)
Lemma split_first_word (c : N) (s : pystr) (words : list pystr) :
  mem c Shlex.whitespace = false ->
  Shlex.split (c :: s) = inr words -> words <> [].
Proof.
  unfold Shlex.split. cbn [Shlex.lex]. intros ->.
  destruct (mem c Shlex.escape);
    [apply lex_under_way; right; right; right; eauto|].
  destruct (mem c Shlex.quotes);
    [apply lex_under_way; right; right; left; eauto|].
  apply lex_under_way. right; left; reflexivity.
Qed.

Lemma whitespace_isspace (c : N) :
  isspace c = false -> mem c Shlex.whitespace = false.
Proof.
  intros Hc. destruct (mem c Shlex.whitespace) eqn:Hm; [|reflexivity].
  unfold mem, Shlex.whitespace in Hm. simpl in Hm.
  repeat (apply orb_true_iff in Hm as [Hm | Hm];
          [apply N.eqb_eq in Hm; subst c; discriminate Hc|]).
  discriminate.
Qed.

(** *** More on the run *)

Lemma get_string (d : dict) (k s : pystr) :
  get d k = JStr s -> dict_lookup d k = Some (JStr s).
Proof.
  unfold get. destruct (dict_lookup d k); [congruence | discriminate].
Qed.

Lemma same_as_get (d : dict) (k s : pystr) :
  differs_from (get d k) s = false -> dict_lookup d k = Some (JStr s).
Proof.
  destruct (get d k) eqn:E; simpl; try discriminate.
  intros H. apply negb_false_iff in H.
  destruct (pystr_eqb_spec s0 s) as [->|]; [|discriminate].
  now apply get_string.
Qed.

Lemma resolution_resolves_to (w : World) (cmd : pystr) :
  fst (resolution (expected_config w) w) = Some cmd -> resolves_to w cmd.
Proof.
  intros H. exists (expected_config w), [EvReadConfig],
    (snd (resolution (expected_config w) w)).
  split; [apply get_user_config_run|].
  now rewrite configured_or_default_run, H.
Qed.

(** The resolved command begins with a character that is not white space
    to the lexer. *)
Lemma resolution_head (w : World) (cmd : pystr) :
  fst (resolution (expected_config w) w) = Some cmd ->
  exists c r, cmd = c :: r /\ mem c Shlex.whitespace = false.
Proof.
  unfold resolution.
  destruct (truthy (speech_command (expected_config w))) eqn:Ht; simpl.
  - intros Hs. rewrite Hs in Ht.
    unfold expected_config in Hs.
    destruct (config_json w) as [[]|]; try discriminate Hs. simpl in Hs.
    destruct (get d (str "speech_command")); try discriminate Hs.
    simpl in Hs. inversion Hs as [Hc].
    destruct (strip_spec s) as (_ & Hn). rewrite Hc in Hn.
    destruct cmd as [|c r]; [discriminate Ht|].
    exists c, r. split; [congruence|]. apply whitespace_isspace.
    simpl in Hn. apply andb_true_iff in Hn as (Hn & _).
    now apply negb_true_iff in Hn.
  - intros Hf.
    repeat match type of Hf with
           | (if ?b then _ else _) = Some _ =>
               destruct b;
               [inversion Hf; subst cmd; eexists _, _; split; reflexivity|]
           end.
    discriminate Hf.
Qed.

(** A launch, and everything that led to it. *)
Lemma stages_launch (w : World) (argv : list pystr) (t : N) :
  In (argv, t) (invocations (snd (stages w))) ->
  exists m cmd words,
    valid_notification w m
    /\ fst (resolution (expected_config w) w) = Some cmd
    /\ Shlex.split cmd = inr words
    /\ argv = words ++ [strip m] /\ t = 10
    /\ snd (stages w)
       = EvReadConfig :: EvReadStdin
           :: snd (resolution (expected_config w) w) ++ [EvRun argv 10].
Proof.
  unfold stages.
  destruct (audio_disabled w) eqn:Hon; [simpl; tauto|].
  destruct (stdin_json w) as [[]|] eqn:Hin; try (simpl; tauto).
  destruct (differs_from _ _) eqn:Hk; [simpl; tauto|].
  destruct (get d (str "message")) eqn:Hm; try (simpl; tauto).
  pose proof (invocations_resolution (expected_config w) w) as Hr.
  destruct (resolution (expected_config w) w) as [[cmd|] t1]; simpl in *.
  - destruct (Shlex.split cmd) as [e|words] eqn:Hsp; simpl;
      rewrite invocations_app, Hr; simpl; [tauto|].
    intros [Heq|[]]. inversion Heq; subst argv t.
    exists s, cmd, words.
    split; [|split; [reflexivity | split; [exact Hsp | repeat split]]].
    split; [exact Hon|]. exists d.
    split; [first [reflexivity | exact Hin]|].
    split; [now apply same_as_get | now apply get_string].
  - rewrite invocations_app, Hr. simpl. tauto.
Qed.

Lemma probed_initial (wh : pystr -> option pystr) (l : list pystr) :
  initial_segment (probed wh l) l.
Proof.
  induction l as [|c l (rest & IH)]; simpl; [now exists []|].
  destruct (truthy (wh c)).
  - now exists l.
  - exists rest. simpl. now f_equal.
Qed.

Lemma resolution_probes (cfg : UserConfig) (w : World) :
  exists ps, snd (resolution cfg w) = map EvWhich ps
             /\ initial_segment ps default_candidates.
Proof.
  unfold resolution. destruct (truthy (speech_command cfg)); cbn [snd].
  - exists []. split; [reflexivity | now exists default_candidates].
  - exists (probed (which w) default_candidates).
    split; [reflexivity | apply probed_initial].
Qed.

(** X1.  The order of a run.  The preference file is read first.  Either
    nothing else happens, or standard input is read next, then candidates
    are probed (an initial segment of the candidate list, in its order), and
    then at most one command is launched, with a timeout of 10 seconds, as
    the last thing the run does. *)
Theorem run_order (w : World) :
  snd (main w) = [EvReadConfig]
  \/ exists ps launches,
       snd (main w)
       = EvReadConfig :: EvReadStdin :: map EvWhich ps ++ launches
       /\ initial_segment ps default_candidates
       /\ (launches = [] \/ exists argv, launches = [EvRun argv 10]).
Proof.
  rewrite main_run. unfold stages.
  destruct (audio_disabled w); [now left|]. right.
  assert (Hstop : exists ps launches,
             [EvReadConfig; EvReadStdin]
             = EvReadConfig :: EvReadStdin :: map EvWhich ps ++ launches
             /\ initial_segment ps default_candidates
             /\ (launches = [] \/ exists argv, launches = [EvRun argv 10])).
  { exists [], []. split; [reflexivity|].
    split; [now exists default_candidates | now left]. }
  destruct (stdin_json w) as [[]|]; try exact Hstop.
  destruct (differs_from _ _); [exact Hstop|].
  destruct (get d (str "message")); try exact Hstop.
  destruct (resolution_probes (expected_config w) w) as (ps & Hps & Hseg).
  destruct (resolution (expected_config w) w) as [resolved t1].
  simpl in Hps. subst t1. exists ps.
  destruct resolved as [cmd|]; simpl.
  - destruct (Shlex.split cmd) as [e|words]; simpl.
    + exists []. split; [reflexivity|]. split; [exact Hseg | now left].
    + eexists. split; [reflexivity|]. split; [exact Hseg | right; eauto].
  - exists []. split; [reflexivity|]. split; [exact Hseg | now left].
Qed.

(** X2.  Only [audio_off] literally [true] switches the hook off.  In
    every other case (no file, a file that is not a JSON object, [audio_off]
    absent, [false], or not a boolean at all) standard input is read right
    after the preference file, and it is read once. *)
Theorem stdin_read_unless_disabled (w : World) :
  audio_disabled w = false ->
  exists rest,
    snd (main w) = EvReadConfig :: EvReadStdin :: rest
    /\ existsb is_read_stdin rest = false.
Proof.
  intros Hon. rewrite main_run. unfold stages. rewrite Hon.
  assert (Hstop : exists rest,
             [EvReadConfig; EvReadStdin] = EvReadConfig :: EvReadStdin :: rest
             /\ existsb is_read_stdin rest = false)
    by now exists [].
  destruct (stdin_json w) as [[]|]; try exact Hstop.
  destruct (differs_from _ _); [exact Hstop|].
  destruct (get d (str "message")); try exact Hstop.
  destruct (resolution_probes (expected_config w) w) as (ps & Hps & _).
  destruct (resolution (expected_config w) w) as [resolved t1].
  simpl in Hps. subst t1.
  destruct (dispatch w (strip s) resolved) as [r t2] eqn:Hd.
  eexists. split; [reflexivity|].
  rewrite existsb_app. apply orb_false_iff. split.
  - clear. induction ps; simpl; auto.
  - unfold dispatch in Hd. destruct resolved as [cmd|].
    + destruct (Shlex.split cmd); inversion Hd; reflexivity.
    + inversion Hd; reflexivity.
Qed.

Lemma stdin_read_unless_disabled_witness :
  exists rest,
    snd (main world_audio_off_string) = EvReadConfig :: EvReadStdin :: rest
    /\ existsb is_read_stdin rest = false.
Proof.
  apply (stdin_read_unless_disabled world_audio_off_string). reflexivity.
Defined.

Example audio_off_string_speaks :
  run_hook world_audio_off_string
  = (0%Z, [EvReadConfig; EvReadStdin; EvWhich (str "say");
           EvRun [str "say"; str "Hi"] 10]).
Proof. reflexivity. Qed.

Lemma expected_config_fields (w : World) (d : dict) :
  config_json w = Some (JObj d) ->
  expected_config w
  = {| audio_off := copied_audio_off (get d (str "audio_off"));
       speech_command := copied_speech_command (get d (str "speech_command")) |}.
Proof. unfold expected_config. now intros ->. Qed.

(** X3.  Fields the hook does not know are ignored, and an absent field is
    the same as one that is [null].  Two runs in the same surroundings,
    whose preference files are JSON objects that agree on
    [d.get("audio_off")] and [d.get("speech_command")] and whose inputs are
    JSON objects that agree on [d.get("hook_event_name")] and
    [d.get("message")], end the same way and do the same things. *)
Theorem only_four_fields_matter (w : World) (config1 config2 input1 input2 : pystr)
    (c1 c2 e1 e2 : dict) :
  Json.loads (recursion_room w) config1 = Some (JObj c1) ->
  Json.loads (recursion_room w) config2 = Some (JObj c2) ->
  Json.loads (recursion_room w) input1 = Some (JObj e1) ->
  Json.loads (recursion_room w) input2 = Some (JObj e2) ->
  get c1 (str "audio_off") = get c2 (str "audio_off") ->
  get c1 (str "speech_command") = get c2 (str "speech_command") ->
  get e1 (str "hook_event_name") = get e2 (str "hook_event_name") ->
  get e1 (str "message") = get e2 (str "message") ->
  main (with_inputs w (FileText config1) (StdinText input1))
  = main (with_inputs w (FileText config2) (StdinText input2)).
Proof.
  intros Hc1 Hc2 He1 He2 Ha Hs Hk Hm.
  set (w1 := with_inputs w (FileText config1) (StdinText input1)).
  set (w2 := with_inputs w (FileText config2) (StdinText input2)).
  assert (Hcfg : expected_config w1 = expected_config w2).
  { rewrite (expected_config_fields w1 c1 Hc1),
      (expected_config_fields w2 c2 Hc2). now rewrite Ha, Hs. }
  rewrite !main_run. unfold stages.
  rewrite <- !audio_disabled_expected, Hcfg.
  replace (stdin_json w1) with (Some (JObj e1)) by (symmetry; exact He1).
  replace (stdin_json w2) with (Some (JObj e2)) by (symmetry; exact He2).
  rewrite Hk, Hm. reflexivity.
Qed.

Lemma only_four_fields_matter_witness :
  main (with_inputs world_hangs (FileText config_with_theme)
          (StdinText notification_with_session))
  = main (with_inputs world_hangs (FileText config_plain)
            (StdinText notification_hi)).
Proof.
  apply (only_four_fields_matter world_hangs config_with_theme config_plain
           notification_with_session notification_hi
           [(str "theme", JStr (str "dark"));
            (str "speech_command", JStr (str "say"));
            (str "volume", JInt 3)]
           [(str "speech_command", JStr (str "say"))]
           [(str "session_id", JStr (str "abc"));
            (str "hook_event_name", JStr (str "Notification"));
            (str "message", JStr (str "Hi"));
            (str "cwd", JNull)]
           event_hi); reflexivity.
Defined.

(** X4.  The [speech_command] of a loaded configuration is trimmed: it
    neither begins nor ends with white space, and it is the string of the
    preference file with white space, and nothing else, taken off both
    ends. *)
Theorem loaded_command_is_trimmed (w : World) (cfg : UserConfig)
    (cmd : pystr) :
  fst (get_user_config w) = Val cfg ->
  speech_command cfg = Some cmd ->
  no_outer_space cmd = true
  /\ exists d s l r,
       config_json w = Some (JObj d)
       /\ dict_lookup d (str "speech_command") = Some (JStr s)
       /\ s = l ++ cmd ++ r
       /\ all_space l = true /\ all_space r = true.
Proof.
  rewrite get_user_config_run. simpl. intros Hc Hs.
  inversion Hc; subst cfg. clear Hc.
  unfold expected_config in Hs.
  destruct (config_json w) as [[]|] eqn:Hj; try discriminate Hs.
  simpl in Hs.
  destruct (get d (str "speech_command")) eqn:Hg; try discriminate Hs.
  simpl in Hs. inversion Hs; subst cmd.
  destruct (strip_spec s) as ((l & r & Hsplit & Hl & Hr) & Hn).
  split; [exact Hn|].
  exists d, s, l, r. repeat split; try assumption.
  now apply get_string.
Qed.

Lemma loaded_command_is_trimmed_witness :
  no_outer_space (str "nosuchcmd") = true
  /\ exists d s l r,
       config_json world_missing_command = Some (JObj d)
       /\ dict_lookup d (str "speech_command") = Some (JStr s)
       /\ s = l ++ str "nosuchcmd" ++ r
       /\ all_space l = true /\ all_space r = true.
Proof.
  apply (loaded_command_is_trimmed world_missing_command
           {| audio_off := None; speech_command := Some (str "nosuchcmd") |});
    reflexivity.
Defined.

(** X5.  What is spoken is the message, trimmed.  In every launch the
    final argument neither begins nor ends with white space, and the
    [message] of the event is that argument with white space, and nothing
    else, around it. *)
Theorem spoken_message_is_trimmed (w : World) (argv : list pystr) (t : N) :
  In (EvRun argv t) (snd (main w)) ->
  no_outer_space (last argv []) = true
  /\ exists m l r,
       valid_notification w m
       /\ m = l ++ last argv [] ++ r
       /\ all_space l = true /\ all_space r = true.
Proof.
  rewrite main_run. intros Hin. apply in_invocations in Hin.
  destruct (stages_launch w argv t Hin)
    as (m & cmd & words & Hv & _ & _ & -> & _).
  rewrite last_last.
  destruct (strip_spec m) as ((l & r & Hsplit & Hl & Hr) & Hn).
  split; [exact Hn|]. now exists m, l, r.
Qed.

Lemma spoken_message_is_trimmed_witness :
  no_outer_space
    (last [str "say"; str "--rate=200"; str "Build finished"] []) = true
  /\ exists m l r,
       valid_notification world_build_finished m
       /\ m = l ++ last [str "say"; str "--rate=200"; str "Build finished"] []
                ++ r
       /\ all_space l = true /\ all_space r = true.
Proof.
  apply (spoken_message_is_trimmed world_build_finished
           [str "say"; str "--rate=200"; str "Build finished"] 10).
  simpl. auto.
Defined.

(** X6.  A configured [speech_command] made of white space only counts as
    none: resolution is that of [detect_default_command]. *)
Theorem blank_command_is_unset (w : World) (cfg : UserConfig) (d : dict)
    (s : pystr) :
  config_json w = Some (JObj d) ->
  dict_lookup d (str "speech_command") = Some (JStr s) ->
  all_space s = true ->
  fst (get_user_config w) = Val cfg ->
  speech_command cfg = Some []
  /\ configured_or_default cfg w = detect_default_command w.
Proof.
  intros Hj Hl Hs. rewrite get_user_config_run. simpl. intros Hc.
  inversion Hc; subst cfg. clear Hc.
  assert (Hcmd : speech_command (expected_config w) = Some []).
  { rewrite (expected_config_fields w d Hj). unfold get. rewrite Hl. simpl.
    now rewrite (strip_all_space s Hs). }
  split; [exact Hcmd|].
  unfold configured_or_default. now rewrite Hcmd.
Qed.

Lemma blank_command_is_unset_witness :
  speech_command blank_config = Some []
  /\ configured_or_default blank_config world_no_command
     = detect_default_command world_no_command.
Proof.
  apply (blank_command_is_unset world_no_command blank_config
           [(str "speech_command", JStr (str "   "))] (str "   "));
    reflexivity.
Defined.

(** X7.  The message is never what gets executed.  Every launch has at
    least two arguments: the first is the first word of the resolved
    command, and the trimmed message comes last, after all the words of the
    command. *)
Theorem message_is_never_the_program (w : World) (argv : list pystr)
    (t : N) :
  In (EvRun argv t) (snd (main w)) ->
  exists program args m cmd,
    argv = program :: args ++ [strip m]
    /\ valid_notification w m
    /\ resolves_to w cmd
    /\ Shlex.split cmd = inr (program :: args).
Proof.
  rewrite main_run. intros Hin. apply in_invocations in Hin.
  destruct (stages_launch w argv t Hin)
    as (m & cmd & words & Hv & Hres & Hsp & -> & _).
  destruct (resolution_head w cmd Hres) as (c & r & -> & Hc).
  pose proof (split_first_word c r words Hc Hsp) as Hne.
  destruct words as [|program args]; [congruence|].
  exists program, args, m, (c :: r).
  split; [reflexivity|]. split; [exact Hv|].
  split; [now apply resolution_resolves_to | exact Hsp].
Qed.

Lemma message_is_never_the_program_witness :
  exists program args m cmd,
    [str "say"; str "--rate=200"; str "Build finished"]
    = program :: args ++ [strip m]
    /\ valid_notification world_build_finished m
    /\ resolves_to world_build_finished cmd
    /\ Shlex.split cmd = inr (program :: args).
Proof.
  apply (message_is_never_the_program world_build_finished
           [str "say"; str "--rate=200"; str "Build finished"] 10).
  simpl. auto.
Defined.

Lemma plain_run (w : World) :
  (forall cmd, fst (resolution (expected_config w) w) = Some cmd ->
     plain cmd = true) ->
  (fst (stages w) = Val tt \/ fst (stages w) = SysExit 0
   \/ fst (stages w) = SysExit 2).
Proof.
  intros Hp. unfold stages.
  destruct (audio_disabled w); [now right; left|].
  destruct (stdin_json w) as [[]|]; try (now right; right).
  destruct (differs_from _ _); [now right; left|].
  destruct (get d (str "message")); try (now right; right).
  destruct (resolution (expected_config w) w) as [[cmd|] t1]; simpl in *;
    [|now right; right].
  destruct (lex_plain cmd (Hp cmd eq_refl) Shlex.StBlank [] false [])
    as (words & Hw); [now left|].
  unfold Shlex.split. rewrite Hw. simpl.
  destruct (dispatch_fails _ _); [now right; right | now left].
Qed.

(** X8.  A resolved command without quotes and backslashes always splits,
    so the run ends under control: [main] returns or leaves through
    [sys.exit] with 0 or 2, and no exception escapes. *)
Theorem plain_command_exits_cleanly (w : World) :
  (forall cmd, resolves_to w cmd -> plain cmd = true) ->
  (fst (run_hook w) = 0%Z \/ fst (run_hook w) = 2%Z)
  /\ forall e, fst (main w) <> Raise e.
Proof.
  intros Hp. unfold run_hook. rewrite main_run.
  destruct (plain_run w) as [H | [H | H]].
  - intros cmd Hc. now apply Hp, resolution_resolves_to.
  - destruct (stages w); simpl in *; subst. split; [now left | discriminate].
  - destruct (stages w); simpl in *; subst. split; [now left | discriminate].
  - destruct (stages w); simpl in *; subst. split; [now right | discriminate].
Qed.

Lemma plain_command_exits_cleanly_witness :
  (fst (run_hook world_build_finished) = 0%Z
   \/ fst (run_hook world_build_finished) = 2%Z)
  /\ forall e, fst (main world_build_finished) <> Raise e.
Proof.
  apply (plain_command_exits_cleanly world_build_finished).
  intros cmd H. apply resolves_to_resolution in H.
  vm_compute in H. inversion H. reflexivity.
Defined.

(** X9.  Without a configured command (none in the file, or a blank one)
    every run ends under control, whatever is on the path: the three
    candidates all split. *)
Theorem default_commands_exit_cleanly (w : World) (cfg : UserConfig) :
  fst (get_user_config w) = Val cfg ->
  truthy (speech_command cfg) = false ->
  (fst (run_hook w) = 0%Z \/ fst (run_hook w) = 2%Z)
  /\ forall e, fst (main w) <> Raise e.
Proof.
  rewrite get_user_config_run. simpl. intros Hc Ht.
  inversion Hc; subst cfg. clear Hc.
  unfold run_hook. rewrite main_run.
  destruct (plain_run w) as [H | [H | H]].
  - unfold resolution. rewrite Ht. simpl. intros cmd Hf.
    repeat match type of Hf with
           | (if ?b then _ else _) = Some _ =>
               destruct b; [inversion Hf; reflexivity|]
           end.
    discriminate Hf.
  - destruct (stages w); simpl in *; subst. split; [now left | discriminate].
  - destruct (stages w); simpl in *; subst. split; [now left | discriminate].
  - destruct (stages w); simpl in *; subst. split; [now right | discriminate].
Qed.

Lemma default_commands_exit_cleanly_witness :
  (fst (run_hook world_hangs) = 0%Z \/ fst (run_hook world_hangs) = 2%Z)
  /\ forall e, fst (main world_hangs) <> Raise e.
Proof.
  apply (default_commands_exit_cleanly world_hangs default_config);
    reflexivity.
Defined.

(** X10.  The exit status is 0, 1 or 2, and it is 1 exactly when the run
    is one of a valid notification whose resolved command does not split
    (an unclosed quote, or a backslash at the end). *)
Theorem exit_status_is_0_1_or_2 (w : World) :
  (fst (run_hook w) = 0%Z \/ fst (run_hook w) = 1%Z \/ fst (run_hook w) = 2%Z)
  /\ (fst (run_hook w) = 1%Z
      <-> exists m cmd e,
            valid_notification w m /\ resolves_to w cmd
            /\ Shlex.split cmd = inl e).
Proof.
  unfold run_hook. rewrite main_run. split.
  - unfold stages.
    destruct (audio_disabled w); [now left|].
    destruct (stdin_json w) as [[]|]; try (now right; right).
    destruct (differs_from _ _); [now left|].
    destruct (get d (str "message")); try (now right; right).
    destruct (resolution (expected_config w) w) as [[cmd|] t1]; simpl;
      [|now right; right].
    destruct (Shlex.split cmd); simpl; [now right; left|].
    destruct (dispatch_fails _ _); [now right; right | now left].
  - split.
    + unfold stages.
      destruct (audio_disabled w) eqn:Hon; [discriminate|].
      destruct (stdin_json w) as [[]|] eqn:Hin; try discriminate.
      destruct (differs_from _ _) eqn:Hk; [discriminate|].
      destruct (get d (str "message")) eqn:Hm; try discriminate.
      destruct (resolution (expected_config w) w) as [[cmd|] t1] eqn:Hr;
        simpl; [|discriminate].
      destruct (Shlex.split cmd) as [e|words] eqn:Hsp; simpl.
      * intros _. exists s, cmd, e. split; [|split; [|exact Hsp]].
        -- split; [exact Hon|]. exists d.
           split; [first [reflexivity | exact Hin]|].
           split; [now apply same_as_get | now apply get_string].
        -- apply resolution_resolves_to. now rewrite Hr.
      * destruct (dispatch_fails _ _); discriminate.
    + intros (m & cmd & e & Hv & Hres & Hsp).
      rewrite (stages_notification w m Hv),
        (resolves_to_resolution w cmd Hres).
      unfold dispatch. now rewrite Hsp.
Qed.

Lemma probed_spec (wh : pystr -> option pystr) (l : list pystr) :
  (forall c, first_found wh l = Some c ->
     exists before after,
       l = before ++ c :: after /\ probed wh l = before ++ [c]
       /\ truthy (wh c) = true
       /\ forall x, In x before -> truthy (wh x) = false)
  /\ (first_found wh l = None ->
      probed wh l = l /\ forall x, In x l -> truthy (wh x) = false).
Proof.
  unfold first_found.
  induction l as [|a l (IHsome & IHnone)]; simpl.
  - split; [discriminate | now split].
  - destruct (truthy (wh a)) eqn:Ha; split.
    + intros c Hc. inversion Hc; subst c.
      exists [], l. repeat split; auto. intros x [].
    + discriminate.
    + intros c Hc.
      destruct (IHsome c Hc) as (before & after & -> & Hp & Ht & Hb).
      exists (a :: before), after. simpl. rewrite Hp.
      repeat split; auto. intros x [<- | Hx]; auto.
    + intros Hn. destruct (IHnone Hn) as (Hp & Hall).
      rewrite Hp. split; [reflexivity|]. intros x [<- | Hx]; auto.
Qed.

(** X11.  [detect_default_command] probes ["say"], ["spd-say"],
    ["espeak"] in that order and stops at the first one on the path, which
    it returns: the candidates before it were probed and are not on the
    path, the ones after it are not probed.  It returns [None] exactly when
    it has probed all three and none is on the path.  It never raises. *)
Theorem detect_default_command_spec (w : World) :
  exists r ps,
    detect_default_command w = (Val r, map EvWhich ps)
    /\ (forall c, r = Some c ->
          exists before after,
            [str "say"; str "spd-say"; str "espeak"] = before ++ c :: after
            /\ ps = before ++ [c]
            /\ truthy (which w c) = true
            /\ forall x, In x before -> truthy (which w x) = false)
    /\ (r = None ->
          ps = [str "say"; str "spd-say"; str "espeak"]
          /\ forall x, In x [str "say"; str "spd-say"; str "espeak"] ->
               truthy (which w x) = false).
Proof.
  exists (first_found (which w) default_candidates),
    (probed (which w) default_candidates).
  split; [apply first_on_path_run|].
  apply (probed_spec (which w) default_candidates).
Qed.

Example detect_second_candidate :
  detect_default_command
    (sample_world FileMissing [] (only (str "spd-say") (str "/usr/bin/spd-say"))
       NeverExits)
  = (Val (Some (str "spd-say")), [EvWhich (str "say"); EvWhich (str "spd-say")]).
Proof. reflexivity. Qed.

(** X12.  A message that is empty or all white space is still spoken: the
    command is launched once, with the empty string as its final
    argument. *)
Theorem blank_message_is_spoken (w : World) (m cmd : pystr)
    (words : list pystr) :
  valid_notification w m ->
  all_space m = true ->
  resolves_to w cmd ->
  Shlex.split cmd = inr words ->
  invocations (snd (main w)) = [(words ++ [[]], 10)].
Proof.
  intros Hv Hm Hr Hs.
  rewrite main_run, (stages_notification w m Hv),
    (resolves_to_resolution w cmd Hr).
  unfold dispatch. rewrite Hs, (strip_all_space m Hm). simpl.
  now rewrite invocations_app, invocations_resolution.
Qed.

Lemma blank_message_is_spoken_witness :
  invocations (snd (main world_blank_message)) = [([str "say"] ++ [[]], 10)].
Proof.
  apply (blank_message_is_spoken world_blank_message (str "   ") (str "say")
           [str "say"]).
  - notification [(str "hook_event_name", JStr (str "Notification"));
                  (str "message", JStr (str "   "))].
  - reflexivity.
  - do 3 eexists; split; reflexivity.
  - reflexivity.
Defined.

(** X13.  A preference file that cannot be used is the same as none.
    When the file is unreadable, is not text, is not JSON, or is JSON that
    is not an object, the run is exactly the run without the file. *)
Theorem broken_config_is_no_config (w : World) :
  (forall d, config_json w <> Some (JObj d)) ->
  main w = main (with_inputs w FileMissing (stdin w)).
Proof.
  intros Hc. rewrite !main_run. unfold stages.
  assert (He : expected_config w = default_config).
  { unfold expected_config.
    destruct (config_json w) as [[]|]; try reflexivity. now destruct (Hc d). }
  rewrite <- !audio_disabled_expected, He. reflexivity.
Qed.

Lemma broken_config_is_no_config_witness :
  main world_array_config
  = main (with_inputs world_array_config FileMissing
            (stdin world_array_config)).
Proof.
  apply (broken_config_is_no_config world_array_config).
  intros d H. discriminate H.
Defined.
